(** * UserJobs: duration codec, utilisation percentage and job list of
      [src/elements/UserJobs.js], embedded in Rocq.

    The component is JavaScript.  Its functions are translated one by one;
    the part of the ECMAScript runtime they call ([Number], [parseInt],
    [String], [padStart], [split], [includes], [toFixed], [Math.min], the
    arithmetic and comparison operators) is defined first. *)

From Stdlib Require Import ZArith QArith Qround Qabs Qreduction.
From Stdlib Require Import String Ascii List Bool Lia.
Import ListNotations.

Local Open Scope list_scope.
Local Open Scope string_scope.
Local Open Scope Z_scope.

(* ================================================================== *)
(** * 1. JavaScript numbers *)
(* ================================================================== *)

(** A JavaScript number is an IEEE-754 binary64 value.  [Fin q] carries the
    rational a finite double denotes, kept in lowest terms; every arithmetic
    result goes through [rnd], the round-to-nearest-even of binary64.  The
    two zeros are identified: the component splits its input at every ["-"],
    so it never builds a negative number. *)
Inductive number : Type :=
  | NaN
  | Inf (negative : bool)
  | Fin (q : Q).

(** Nearest integer to [N / D] for [D > 0], ties to the even one. *)
Definition div_half_even (N D : Z) : Z :=
  let f := N / D in
  match 2 * (N mod D) ?= D with
  | Lt => f
  | Gt => f + 1
  | Eq => if Z.even f then f else f + 1
  end.

(** [floor (log2 (n / d))] for positive [n] and [d]. *)
Definition ilog2 (n d : Z) : Z :=
  let c := Z.log2 n - Z.log2 d in
  if (if 0 <=? c then d * 2 ^ c <=? n else d <=? n * 2 ^ (- c))
  then c else c - 1.

(** Rounding of a rational to binary64: 53 significant bits, least exponent
    -1074, overflow to an infinity from 2^1024 on. *)
Definition rnd (q : Q) : number :=
  let q := Qred q in
  let n := Z.abs (Qnum q) in
  let d := Zpos (Qden q) in
  let sgn := Z.sgn (Qnum q) in
  if n =? 0 then Fin 0
  else
    let sh := Z.max (ilog2 n d - 52) (-1074) in
    if 0 <=? sh then
      let m := div_half_even n (d * 2 ^ sh) in
      if 2 ^ 1024 <=? m * 2 ^ sh then Inf (sgn <? 0)
      else Fin (inject_Z (sgn * (m * 2 ^ sh)))
    else
      let m := div_half_even (n * 2 ^ (- sh)) d in
      Fin (Qred (Qmake (sgn * m) (Z.to_pos (2 ^ (- sh))))).

Definition of_Z (z : Z) : number := rnd (inject_Z z).

Definition Qneg (q : Q) : bool := Qnum q <? 0.
Definition Qzero (q : Q) : bool := Qnum q =? 0.

(** The operators [+], [*] and [/] on numbers. *)
Definition add (x y : number) : number :=
  match x, y with
  | NaN, _ | _, NaN => NaN
  | Inf a, Inf b => if Bool.eqb a b then Inf a else NaN
  | Inf a, Fin _ => Inf a
  | Fin _, Inf b => Inf b
  | Fin p, Fin q => rnd (p + q)
  end.

Definition mul (x y : number) : number :=
  match x, y with
  | NaN, _ | _, NaN => NaN
  | Inf a, Inf b => Inf (xorb a b)
  | Inf a, Fin q => if Qzero q then NaN else Inf (xorb a (Qneg q))
  | Fin p, Inf b => if Qzero p then NaN else Inf (xorb (Qneg p) b)
  | Fin p, Fin q => rnd (p * q)
  end.

Definition div (x y : number) : number :=
  match x, y with
  | NaN, _ | _, NaN => NaN
  | Inf _, Inf _ => NaN
  | Inf a, Fin q => Inf (xorb a (Qneg q))
  | Fin _, Inf _ => Fin 0
  | Fin p, Fin q =>
      if Qzero q then (if Qzero p then NaN else Inf (Qneg p))
      else rnd (p / q)
  end.

(** The comparisons [<], [>=] and [===]: every comparison with [NaN] is
    false. *)
Definition lt (x y : number) : bool :=
  match x, y with
  | NaN, _ | _, NaN => false
  | Inf a, Inf b => a && negb b
  | Inf a, Fin _ => a
  | Fin _, Inf b => negb b
  | Fin p, Fin q => negb (Qle_bool q p)
  end.

Definition ge (x y : number) : bool :=
  match x, y with
  | NaN, _ | _, NaN => false
  | _, _ => negb (lt x y)
  end.

Definition strict_eq (x y : number) : bool :=
  match x, y with
  | Inf a, Inf b => Bool.eqb a b
  | Fin p, Fin q => Qeq_bool p q
  | _, _ => false
  end.

(** [Math.min] of two numbers: [NaN] if either is. *)
Definition Math_min (x y : number) : number :=
  match x, y with
  | NaN, _ | _, NaN => NaN
  | _, _ => if lt y x then y else x
  end.

Definition is_NaN (x : number) : bool :=
  match x with NaN => true | _ => false end.

(* ================================================================== *)
(** * 2. JavaScript strings *)
(* ================================================================== *)

(** A string is a sequence of code units; the characters of [string] are the
    code units 0 to 255. *)
Definition code (c : ascii) : Z := Z.of_N (N_of_ascii c).

(** White space and line terminators (tab, LF, VT, FF, CR, space, NBSP). *)
Definition is_ws (c : ascii) : bool :=
  let n := code c in
  ((9 <=? n) && (n <=? 13)) || (n =? 32) || (n =? 160).

(** Value of a character read as a digit: ["0"]..["9"], then the letters
    of either case from 10 on. *)
Definition digit_of (c : ascii) : option Z :=
  let n := code c in
  if (48 <=? n) && (n <=? 57) then Some (n - 48)
  else if (97 <=? n) && (n <=? 122) then Some (n - 87)
  else if (65 <=? n) && (n <=? 90) then Some (n - 55)
  else None.

Definition is_digit (r : Z) (c : ascii) : bool :=
  match digit_of c with
  | Some d => d <? r
  | None => false
  end.

Fixpoint all_digits (r : Z) (s : string) : bool :=
  match s with
  | "" => true
  | String c t => is_digit r c && all_digits r t
  end.

(** Value of a digit string in radix [r], most significant digit first. *)
Fixpoint digits_value (r : Z) (s : string) (acc : Z) : Z :=
  match s with
  | "" => acc
  | String c t =>
      digits_value r t (acc * r + match digit_of c with Some d => d | None => 0 end)
  end.

(** Longest prefix of radix-[r] digits, and the rest. *)
Fixpoint span_digits (r : Z) (s : string) : string * string :=
  match s with
  | "" => ("", "")
  | String c t =>
      if is_digit r c
      then let (d, rest) := span_digits r t in (String c d, rest)
      else ("", s)
  end.

Fixpoint trim_start (s : string) : string :=
  match s with
  | "" => ""
  | String c t => if is_ws c then trim_start t else s
  end.

Fixpoint trim_end (s : string) : string :=
  match s with
  | "" => ""
  | String c t =>
      match trim_end t with
      | "" => if is_ws c then "" else String c ""
      | t' => String c t'
      end
  end.

Definition trim (s : string) : string := trim_end (trim_start s).

Fixpoint repeat_char (c : ascii) (n : nat) : string :=
  match n with
  | O => ""
  | S k => String c (repeat_char c k)
  end.

(** [s.padStart(n, c)] for a one-character filler. *)
Definition padStart (s : string) (n : nat) (c : ascii) : string :=
  repeat_char c (n - String.length s) ++ s.

(** [s.includes(c)] for a one-character needle. *)
Fixpoint includes (s : string) (c : ascii) : bool :=
  match s with
  | "" => false
  | String a t => Ascii.eqb a c || includes t c
  end.

(** [s.split(c)] for a one-character separator: the first part and the
    following ones, so the result is never empty ([[""]] for [""]). *)
Fixpoint split_parts (s : string) (sep : ascii) : string * list string :=
  match s with
  | "" => ("", [])
  | String c t =>
      let (h, l) := split_parts t sep in
      if Ascii.eqb c sep then ("", h :: l) else (String c h, l)
  end.

Definition split (s : string) (sep : ascii) : list string :=
  let (h, l) := split_parts s sep in h :: l.

Definition digit_char (d : Z) : ascii := ascii_of_N (Z.to_N (48 + d)).

(** Decimal digits of a natural number, no leading zero. *)
Fixpoint dec_digits (fuel : nat) (n : Z) (acc : string) : string :=
  match fuel with
  | O => acc
  | S k =>
      let acc' := String (digit_char (n mod 10)) acc in
      if n <? 10 then acc' else dec_digits k (n / 10) acc'
  end.

Definition decimal (n : Z) : string :=
  dec_digits (S (Z.to_nat (Z.log2 n))) n "".

(* ================================================================== *)
(** * 3. Conversions between strings and numbers *)
(* ================================================================== *)

(** [m * 10^k] as a rational. *)
Definition scale10 (m k : Z) : Q :=
  if 0 <=? k then inject_Z (m * 10 ^ k) else Qmake m (Z.to_pos (10 ^ (- k))).

(** Sign prefix of a literal. *)
Definition strip_sign (s : string) : bool * string :=
  match s with
  | String "+" t => (false, t)
  | String "-" t => (true, t)
  | _ => (false, s)
  end.

(** ExponentPart of a decimal literal: nothing, or [e]/[E], an optional
    sign and at least one digit, up to the end of the string. *)
Definition exponent_part (s : string) : option Z :=
  match s with
  | "" => Some 0
  | String c t =>
      if Ascii.eqb c "e" || Ascii.eqb c "E" then
        let (neg, ds) := strip_sign t in
        match ds with
        | "" => None
        | _ => if all_digits 10 ds
               then Some (if neg then - digits_value 10 ds 0 else digits_value 10 ds 0)
               else None
        end
      else None
  end.

(** StrDecimalLiteral. *)
Definition StrDecimalLiteral (s : string) : number :=
  let (neg, u) := strip_sign s in
  if String.eqb u "Infinity" then Inf neg
  else
    let (ip, r1) := span_digits 10 u in
    let (fp, r2) := match r1 with
                    | String "." r => span_digits 10 r
                    | _ => ("", r1)
                    end in
    match ip ++ fp with
    | "" => NaN
    | ds =>
        match exponent_part r2 with
        | None => NaN
        | Some e =>
            let m := digits_value 10 ds 0 in
            rnd (scale10 (if neg then - m else m) (e - Z.of_nat (String.length fp)))
        end
    end.

(** Radix prefix of a NonDecimalIntegerLiteral. *)
Definition radix_prefix (s : string) : option (Z * string) :=
  match s with
  | String "0" (String c t) =>
      if Ascii.eqb c "x" || Ascii.eqb c "X" then Some (16, t)
      else if Ascii.eqb c "o" || Ascii.eqb c "O" then Some (8, t)
      else if Ascii.eqb c "b" || Ascii.eqb c "B" then Some (2, t)
      else None
  | _ => None
  end.

(** [Number(s)] on a string (StringToNumber): white space is trimmed, the
    empty string is 0, a text that is no numeric literal is [NaN]. *)
Definition StringToNumber (s : string) : number :=
  match trim s with
  | "" => Fin 0
  | t =>
      match radix_prefix t with
      | Some (r, body) =>
          match body with
          | "" => NaN
          | _ => if all_digits r body then of_Z (digits_value r body 0) else NaN
          end
      | None => StrDecimalLiteral t
      end
  end.

(** [parseInt(s, radix)]; [radix = None] is the call with one argument,
    which a radix of 0 amounts to. *)
Definition parseInt (s : string) (radix : option Z) : number :=
  let (neg, u) := strip_sign (trim_start s) in
  let radix := match radix with Some 0 => None | _ => radix end in
  let R := match radix with Some r => r | None => 10 end in
  if (R <? 2) || (36 <? R) then NaN
  else
    let strip := match radix with Some r => r =? 16 | None => true end in
    let (R, u) :=
      match u with
      | String "0" (String c t) =>
          if strip && (Ascii.eqb c "x" || Ascii.eqb c "X") then (16, t) else (R, u)
      | _ => (R, u)
      end in
    let (ds, _) := span_digits R u in
    match ds with
    | "" => NaN
    | _ => let m := digits_value R ds 0 in of_Z (if neg then - m else m)
    end.

(** [10^k <= n / d], for positive [n] and [d]. *)
Definition pow10_le (k n d : Z) : bool :=
  if 0 <=? k then d * 10 ^ k <=? n else d <=? n * 10 ^ (- k).

(** [floor (log10 (n / d))] for a positive double [n / d]. *)
Definition ilog10 (n d : Z) : Z :=
  let e := (ilog2 n d * 1233) / 4096 in
  if pow10_le (e + 2) n d then e + 2
  else if pow10_le (e + 1) n d then e + 1
  else if pow10_le e n d then e
  else e - 1.

(** The digits of Number::toString: a [k]-digit integer [s] and an exponent
    [n] with [s * 10^(n-k)] rounding to the double [a], for the least [k];
    of two such [s] the one nearer to [a]. *)
Definition digits_candidate (a : Q) (n : Z) (k : Z) : option (Z * Z) :=
  let t := (a * scale10 1 (k - n))%Q in
  let lo := Qfloor t in
  let ok s := (10 ^ (k - 1) <=? s) && (s <=? 10 ^ k) &&
              match rnd (inject_Z s * scale10 1 (n - k)) with
              | Fin b => Qeq_bool a b
              | _ => false
              end in
  let norm s := if s =? 10 ^ k then (10 ^ (k - 1), n + 1) else (s, n) in
  match ok lo, ok (lo + 1) with
  | true, false => Some (norm lo)
  | false, true => Some (norm (lo + 1))
  | true, true =>
      match (t - inject_Z lo ?= inject_Z (lo + 1) - t)%Q with
      | Lt => Some (norm lo)
      | Gt => Some (norm (lo + 1))
      | Eq => Some (norm (if Z.even lo then lo else lo + 1))
      end
  | false, false => None
  end.

Fixpoint shortest_digits (fuel : nat) (a : Q) (n : Z) (k : Z) : Z * Z * Z :=
  match fuel with
  | O => let s := div_half_even (Qnum (a * scale10 1 (k - n))%Q)
                                (Zpos (Qden (a * scale10 1 (k - n))%Q)) in
         (s, n, k)
  | S f =>
      match digits_candidate a n k with
      | Some (s, n') => (s, n', k)
      | None => shortest_digits f a n (k + 1)
      end
  end.

(** Number::toString of a positive double outside the safe integers. *)
Definition positive_toString (a : Q) : string :=
  let n0 := ilog10 (Qnum a) (Zpos (Qden a)) + 1 in
  let '(s, n, k) := shortest_digits 16 a n0 1 in
  let ds := decimal s in
  let kn := Z.to_nat k in
  if (k <=? n) && (n <=? 21) then ds ++ repeat_char "0" (Z.to_nat (n - k))
  else if (0 <? n) && (n <=? 21) then
    substring 0 (Z.to_nat n) ds ++ "." ++ substring (Z.to_nat n) (kn - Z.to_nat n) ds
  else if (-6 <? n) && (n <=? 0) then
    "0." ++ repeat_char "0" (Z.to_nat (- n)) ++ ds
  else
    let e := n - 1 in
    let es := (if e <? 0 then "-" else "+") ++ decimal (Z.abs e) in
    if k =? 1 then ds ++ "e" ++ es
    else substring 0 1 ds ++ "." ++ substring 1 (kn - 1) ds ++ "e" ++ es.

(** [String(x)] on a number (Number::toString, radix 10).  For an integral
    value below 2^53 the digits the specification selects are its decimal
    expansion. *)
Definition Number_toString (x : number) : string :=
  match x with
  | NaN => "NaN"
  | Inf false => "Infinity"
  | Inf true => "-Infinity"
  | Fin q =>
      let q := Qred q in
      let a := Qabs q in
      if Qzero q then "0"
      else
        (if Qneg q then "-" else "") ++
        (if (Zpos (Qden a) =? 1) && (Qnum a <? 2 ^ 53) then decimal (Qnum a)
         else positive_toString a)
  end.

(** [x.toFixed(f)]: the nearest multiple of [10^-f], the larger one on a
    tie, in fixed notation; [String(x)] from 10^21 on. *)
Definition toFixed (x : number) (f : nat) : string :=
  match x with
  | Fin q =>
      let a := Qabs q in
      if Qle_bool (inject_Z (10 ^ 21)) a then Number_toString x
      else
        let n := Qfloor (a * inject_Z (10 ^ Z.of_nat f) + (1 # 2))%Q in
        let m := if n =? 0 then "0" else decimal n in
        let m := match f with
                 | O => m
                 | _ =>
                     let m := repeat_char "0" (S f - String.length m) ++ m in
                     let k := String.length m in
                     substring 0 (k - f) m ++ "." ++ substring (k - f) f m
                 end in
        (if Qneg q then "-" else "") ++ m
  | _ => Number_toString x
  end.

(* ================================================================== *)
(** * 4. JavaScript values *)
(* ================================================================== *)

(** The values the component handles: a missing array element or property
    is [Undefined]. *)
Inductive value : Type :=
  | Undefined
  | Null
  | Bool (b : bool)
  | Num (x : number)
  | Str (s : string).

Definition ToNumber (v : value) : number :=
  match v with
  | Undefined => NaN
  | Null => Fin 0
  | Bool b => if b then Fin 1 else Fin 0
  | Num x => x
  | Str s => StringToNumber s
  end.

Definition ToString (v : value) : string :=
  match v with
  | Undefined => "undefined"
  | Null => "null"
  | Bool b => if b then "true" else "false"
  | Num x => Number_toString x
  | Str s => s
  end.

(** Truthiness: [undefined], [null], [false], [0], [NaN] and [""] are
    falsy. *)
Definition ToBoolean (v : value) : bool :=
  match v with
  | Undefined | Null => false
  | Bool b => b
  | Num NaN => false
  | Num (Inf _) => true
  | Num (Fin q) => negb (Qzero q)
  | Str s => negb (String.eqb s "")
  end.

(** Element [i] of an array, [undefined] past its end. *)
Definition item {A} (inj : A -> value) (l : list A) (i : nat) : value :=
  match nth_error l i with
  | Some a => inj a
  | None => Undefined
  end.

(* ================================================================== *)
(** * 5. The duration functions of the component *)
(* ================================================================== *)

(** A duration argument is the [time_elapsed] or [time_requested] property
    of a job: a string, or [None] when the property is absent. *)

(** [incrementTime]: one second more on a SLURM-style time string. *)
Definition incrementTime (timeStr : option string) : string :=
  match timeStr with
  | None => "0:00:01"
  | Some timeStr =>
      if negb (ToBoolean (Str timeStr)) then "0:00:01"
      else
        let '(daysPart, timePart) :=
          if includes timeStr "-"
          then let parts := split timeStr "-" in
               (item Str parts 0, nth 1 parts "")
          else (Null, timeStr) in
        let nums := map StringToNumber (split timePart ":") in
        let h := item Num nums 0 in
        let m := item Num nums 1 in
        let s := item Num nums 2 in
        let s := Num (add (ToNumber s) (Fin 1)) in
        let '(s, m) :=
          if ge (ToNumber s) (Fin 60)
          then (Num (Fin 0), Num (add (ToNumber m) (Fin 1))) else (s, m) in
        let '(m, h) :=
          if ge (ToNumber m) (Fin 60)
          then (Num (Fin 0), Num (add (ToNumber h) (Fin 1))) else (m, h) in
        let '(h, daysPart) :=
          if ToBoolean daysPart && ge (ToNumber h) (Fin 24)
          then (Num (Fin 0),
                Num (add (parseInt (ToString daysPart) None) (Fin 1)))
          else (h, daysPart) in
        let pad v := padStart (ToString v) 2 "0" in
        let newTime := pad h ++ ":" ++ pad m ++ ":" ++ pad s in
        if ToBoolean daysPart then ToString daysPart ++ "-" ++ newTime
        else newTime
  end.

(** [toSeconds], the local function of [getElapsedPercentage]. *)
Definition toSeconds (timeStr : option string) : number :=
  match timeStr with
  | None => Fin 0
  | Some timeStr =>
      if negb (ToBoolean (Str timeStr)) then Fin 0
      else
        let '(days, timePart) :=
          if includes timeStr "-"
          then let parts := split timeStr "-" in
               (parseInt (nth 0 parts "") (Some 10), nth 1 parts "")
          else (Fin 0, timeStr) in
        let nums := map StringToNumber (split timePart ":") in
        let h := item Num nums 0 in
        let m := item Num nums 1 in
        let s := item Num nums 2 in
        add (add (add (mul days (Fin 86400))
                      (mul (ToNumber h) (Fin 3600)))
                 (mul (ToNumber m) (Fin 60)))
            (ToNumber s)
  end.

(** [getElapsedPercentage]: [toFixed] gives a string, which [Math.min]
    converts back to a number. *)
Definition getElapsedPercentage (elapsed requested : option string) : number :=
  let elapsedSec := toSeconds elapsed in
  let requestedSec := toSeconds requested in
  if strict_eq requestedSec (Fin 0) then Fin 0
  else Math_min (Fin 100)
         (ToNumber (Str (toFixed (mul (div elapsedSec requestedSec) (Fin 100)) 2))).

(** [getColor]: the class of the percentage text. *)
Definition getColor (percentage : number) : string :=
  if lt percentage (Fin 50) then "text-green-600"
  else if lt percentage (Fin 75) then "text-yellow-500"
  else "text-red-600".

(** The class of the progress-bar fill, written inline in the table row. *)
Definition progressBarFill (timePercentage : number) : string :=
  if ge timePercentage (Fin 75) then "bg-red-600"
  else if ge timePercentage (Fin 50) then "bg-yellow-500"
  else "bg-green-500".

(** Severity tiers, and the tier each class stands for. *)
Inductive tier : Type := Low | Medium | High.

Definition tier_of_text (class : string) : option tier :=
  if String.eqb class "text-green-600" then Some Low
  else if String.eqb class "text-yellow-500" then Some Medium
  else if String.eqb class "text-red-600" then Some High
  else None.

Definition tier_of_fill (class : string) : option tier :=
  if String.eqb class "bg-green-500" then Some Low
  else if String.eqb class "bg-yellow-500" then Some Medium
  else if String.eqb class "bg-red-600" then Some High
  else None.

(** The tier of the specification's threshold table; no row of the table
    applies to [NaN]. *)
Definition threshold_tier (v : number) : option tier :=
  if lt v (Fin 50) then Some Low
  else if ge v (Fin 50) && lt v (Fin 75) then Some Medium
  else if ge v (Fin 75) then Some High
  else None.

(* ================================================================== *)
(** * 6. The component: state, effects and handlers *)
(* ================================================================== *)

(** A job as the backend lists it; [time_elapsed] and [time_requested] are
    SLURM-style strings, [None] when the property is missing. *)
Record job : Type := mkJob {
  job_id : string;
  job_name : string;
  submit_dir : option string;
  state : string;
  cpus : Z;
  nodes : Z;
  time_elapsed : option string;
  time_requested : option string
}.

(** [{...job, time_elapsed: t}]. *)
Definition with_time_elapsed (j : job) (t : string) : job :=
  mkJob (job_id j) (job_name j) (submit_dir j) (state j) (cpus j) (nodes j)
        (Some t) (time_requested j).

(** A call of [fetch]. *)
Inductive request : Type :=
  | GetJobs
  | PostCancel (jobId : string).

(** How a [fetch(...).then(res => res.json())] chain settles: rejected with
    an error of message [message] ([fetch] failed, the body is not JSON, or
    it is [null] and reading [data.error] throws), or fulfilled with the
    parsed body, of which the handlers read [error] and [jobs].  A body
    without [jobs] has [data_jobs = None]. *)
Record body : Type := mkBody {
  data_error : value;
  data_jobs : option (list job)
}.

Inductive reply : Type :=
  | Rejected (message : string)
  | Fulfilled (data : body).

(** The four [useState] cells, and the requests sent so far. *)
Record component : Type := mkComponent {
  jobs : list job;
  loading : bool;
  error : option string;
  isCanceling : option string;
  requests : list request
}.

Definition initial : component := mkComponent [] true None None [].

Definition setJobs (c : component) (f : list job -> list job) : component :=
  mkComponent (f (jobs c)) (loading c) (error c) (isCanceling c) (requests c).

Definition setLoading (c : component) (b : bool) : component :=
  mkComponent (jobs c) b (error c) (isCanceling c) (requests c).

Definition setError (c : component) (msg : string) : component :=
  mkComponent (jobs c) (loading c) (Some msg) (isCanceling c) (requests c).

Definition setIsCanceling (c : component) (v : option string) : component :=
  mkComponent (jobs c) (loading c) (error c) v (requests c).

Definition fetch (c : component) (r : request) : component :=
  mkComponent (jobs c) (loading c) (error c) (isCanceling c)
              (requests c ++ [r])%list.

(** The [.then(data => ...).catch(err => setError(err.message))] part of a
    chain: [on_data] runs unless the chain was rejected or [data.error] is
    truthy. *)
Definition settle (c : component) (r : reply)
    (on_data : component -> body -> component) : component :=
  match r with
  | Rejected msg => setError c msg
  | Fulfilled data =>
      if ToBoolean (data_error data)
      then setError c (ToString (data_error data))
      else on_data c data
  end.

(** First effect: the job list is requested once, on mount. *)
Definition mount (c : component) : component := fetch c GetJobs.

(** The chain of the first effect settles: [setJobs(data.jobs || [])]
    unless it failed, and [setLoading(false)] in any case. *)
Definition jobs_settled (c : component) (r : reply) : component :=
  let c := settle c r (fun c data =>
             setJobs c (fun _ => match data_jobs data with
                                 | Some l => l
                                 | None => []
                                 end)) in
  setLoading c false.

(** Second effect: the callback of the one-second interval. *)
Definition tick (c : component) : component :=
  setJobs c (fun prevJobs =>
    map (fun job =>
           if String.eqb (state job) "R"
           then with_time_elapsed job (incrementTime (time_elapsed job))
           else job)
        prevJobs).

(** [cancelJob]: the marker is set and the request sent. *)
Definition cancelJob (c : component) (jobId : string) : component :=
  let c := setIsCanceling c (Some jobId) in
  fetch c (PostCancel jobId).

(** The chain of [cancelJob(jobId)] settles: the job is filtered out
    unless the request failed, and the marker is reset in any case. *)
Definition cancel_settled (c : component) (jobId : string) (r : reply)
    : component :=
  let c := settle c r (fun c _ =>
             setJobs c (fun prev =>
               filter (fun job => negb (String.eqb (job_id job) jobId)) prev)) in
  setIsCanceling c None.

(** What the component renders: the spinner, the error paragraph, the
    "No active jobs." paragraph, or one table row per job. *)
Record row : Type := mkRow {
  row_id : string;
  fill_class : string;
  text_class : string;
  cancel_disabled : bool
}.

Inductive view : Type :=
  | Spinner
  | ErrorText (msg : string)
  | NoJobs
  | Table (rows : list row).

(** [isCanceling === job.job_id]. *)
Definition same_id (a : option string) (b : string) : bool :=
  match a with
  | Some a => String.eqb a b
  | None => false
  end.

Definition render_row (c : component) (j : job) : row :=
  let timePercentage := getElapsedPercentage (time_elapsed j) (time_requested j) in
  mkRow (job_id j) (progressBarFill timePercentage) (getColor timePercentage)
        (same_id (isCanceling c) (job_id j)).

Definition render (c : component) : view :=
  if loading c then Spinner
  else match error c with
       | Some msg =>
           if ToBoolean (Str msg) then ErrorText msg
           else match jobs c with
                | [] => NoJobs
                | js => Table (map (render_row c) js)
                end
       | None =>
           match jobs c with
           | [] => NoJobs
           | js => Table (map (render_row c) js)
           end
       end.

(** A click on the "Cancel Job" button of job [jobId]: [cancelJob] runs if
    the button is on screen and not disabled. *)
Definition click (c : component) (jobId : string) : component :=
  match render c with
  | Table rows =>
      if existsb (fun r => String.eqb (row_id r) jobId && negb (cancel_disabled r)) rows
      then cancelJob c jobId
      else c
  | _ => c
  end.

(** Number of cancel requests sent for [jobId]. *)
Definition cancel_calls (jobId : string) (c : component) : nat :=
  List.length (filter (fun r => match r with
                                | PostCancel j => String.eqb j jobId
                                | GetJobs => false
                                end) (requests c)).

(* ================================================================== *)
(** * 6a. The display format, the location link and the popup form *)
(* ================================================================== *)

(** [Math.floor]. *)
Definition Math_floor (x : number) : number :=
  match x with
  | Fin q => Fin (inject_Z (Qfloor q))
  | _ => x
  end.

(** The operator [%]: the remainder has the sign of the dividend and is
    exact. *)
Definition rem (x y : number) : number :=
  match x, y with
  | NaN, _ | _, NaN => NaN
  | Inf _, _ => NaN
  | Fin p, Inf _ => Fin p
  | Fin p, Fin q =>
      if Qzero q then NaN
      else
        let t := Z.quot (Qnum p * Zpos (Qden q)) (Zpos (Qden p) * Qnum q) in
        Fin (Qred (p - q * inject_Z t))
  end.

(** The comparison [>]. *)
Definition gt (x y : number) : bool := lt y x.

(** [parts.join(sep)]. *)
Fixpoint join (sep : string) (l : list string) : string :=
  match l with
  | [] => ""
  | [a] => a
  | a :: t => a ++ sep ++ join sep t
  end.

(** [s.repeat(n)]. *)
Fixpoint repeat_string (s : string) (n : nat) : string :=
  match n with
  | O => ""
  | S k => s ++ repeat_string s k
  end.

(** [parts.push(p)]. *)
Definition push (parts : list string) (p : string) : list string :=
  (parts ++ [p])%list.

(** [formatTime]: a SLURM time string as ["1d 2h 3m 4s"]. *)
Definition formatTime (timeStr : option string) : string :=
  match timeStr with
  | None => "N/A"
  | Some timeStr =>
      if negb (ToBoolean (Str timeStr)) then "N/A"
      else
        let '(dayPart, timePart) :=
          if includes timeStr "-"
          then let parts := split timeStr "-" in
               (item Str parts 0, nth 1 parts "")
          else (Null, timeStr) in
        let nums := map StringToNumber (split timePart ":") in
        let hours := item Num nums 0 in
        let minutes := item Num nums 1 in
        let seconds := item Num nums 2 in
        let days :=
          if ToBoolean dayPart then parseInt (ToString dayPart) (Some 10)
          else Math_floor (div (ToNumber hours) (Fin 24)) in
        let remainingHours :=
          if ToBoolean dayPart then hours
          else Num (rem (ToNumber hours) (Fin 24)) in
        let parts := [] in
        let parts :=
          if gt days (Fin 0)
          then push parts (Number_toString days ++ "d") else parts in
        let parts :=
          if gt (ToNumber remainingHours) (Fin 0) || (0 <? List.length parts)%nat
          then push parts (ToString remainingHours ++ "h") else parts in
        let parts :=
          if gt (ToNumber minutes) (Fin 0) || (0 <? List.length parts)%nat
          then push parts (ToString minutes ++ "m") else parts in
        let parts := push parts (ToString seconds ++ "s") in
        join " " parts
  end.

(** [shortenPath]: the first and the last folder of a path, each folder
    between them replaced by [..]. *)
Definition shortenPath (path : option string) : string :=
  match path with
  | None => ""
  | Some path =>
      if negb (ToBoolean (Str path)) then ""
      else
        let parts := filter (fun p => ToBoolean (Str p)) (split path "/") in
        if (List.length parts <=? 2)%nat then path
        else
          let firstFolder := nth 0 parts "" in
          let lastFolder := nth (List.length parts - 1) parts "" in
          let middleCount := (List.length parts - 2)%nat in
          let dots := repeat_string "../" middleCount in
          "/" ++ firstFolder ++ "/" ++ dots ++ lastFolder
  end.

(** What [generate_file_explorer_path_for_jobs] returns: the job id, or a
    link of which [href] and the text are kept. *)
Inductive location : Type :=
  | JobId (id : string)
  | Anchor (href : string) (text : string).

Definition generate_file_explorer_path_for_jobs (j : job) : location :=
  if negb (match submit_dir j with
           | Some d => ToBoolean (Str d)
           | None => false
           end)
  then JobId (job_id j)
  else
    let dir := match submit_dir j with Some d => d | None => "" end in
    let fullUrl := "/pun/sys/dashboard/files/fs" ++ dir in
    let shortPath := shortenPath (submit_dir j) in
    Anchor fullUrl shortPath.

(** The popup form on a page: the [layoutLocked] cell of the context, the
    [showModal] cell of [PopupForm], and the [originalLockState] ref of the
    mounted [Modal]. *)
Record screen : Type := mkScreen {
  layoutLocked : bool;
  showModal : bool;
  originalLockState : bool
}.

(** [setShowModal(v)] with what it triggers: mounting the modal runs its
    lock effect (the current lock is saved, the layout locked), unmounting
    it runs the cleanup (the saved lock is written back). *)
Definition setShowModal (s : screen) (v : bool) : screen :=
  match showModal s, v with
  | false, true => mkScreen true true (layoutLocked s)
  | true, false => mkScreen (originalLockState s) false (originalLockState s)
  | _, _ => s
  end.

(** What can happen to the form: the open button, the close button (which
    is disabled while submitting), Escape, a mouse press outside the modal,
    and the end of [handleSubmit], which closes the modal only if
    [onSubmit] did not throw. *)
Inductive form_event : Type :=
  | OpenClick
  | CloseClick (isSubmitting : bool)
  | Escape
  | MouseDownOutside
  | Submitted (ok : bool).

Definition handleClose (s : screen) : screen := setShowModal s false.

Definition handleSubmit (s : screen) (ok : bool) : screen :=
  if ok then setShowModal s false else s.

Definition form_step (s : screen) (e : form_event) : screen :=
  match e with
  | OpenClick => setShowModal s true
  | CloseClick isSubmitting =>
      if showModal s && negb isSubmitting then handleClose s else s
  | Escape | MouseDownOutside =>
      if showModal s then handleClose s else s
  | Submitted ok => if showModal s then handleSubmit s ok else s
  end.

Definition form_run (s : screen) (l : list form_event) : screen :=
  fold_left form_step l s.






(** What can happen to the job list, and a run of the component. *)
Inductive event : Type :=
  | Tick
  | JobsSettled (r : reply)
  | Click (jobId : string)
  | CancelSettled (jobId : string) (r : reply).

Definition step (c : component) (e : event) : component :=
  match e with
  | Tick => tick c
  | JobsSettled r => jobs_settled c r
  | Click jobId => click c jobId
  | CancelSettled jobId r => cancel_settled c jobId r
  end.

Definition run (c : component) (l : list event) : component :=
  fold_left step l c.

(* ================================================================== *)
(** * 7. Notions used in the statements *)
(* ================================================================== *)

(** The message of a failed request: the chain was rejected, or the body
    carries a truthy [error] property. *)
Definition failure_message (r : reply) : option string :=
  match r with
  | Rejected msg => Some msg
  | Fulfilled data =>
      if ToBoolean (data_error data) then Some (ToString (data_error data))
      else None
  end.

(** The "Cancel Job" button of [jobId] is on screen and enabled. *)
Definition cancel_enabled (c : component) (jobId : string) : bool :=
  match render c with
  | Table rows =>
      existsb (fun r => String.eqb (row_id r) jobId && negb (cancel_disabled r)) rows
  | _ => false
  end.

(** What one tick does to one job: the elapsed time of a running job is
    replaced by its increment and each other field is kept; a job in another
    state stays as it is. *)
Definition ticked (old new : job) : Prop :=
  (state old = "R" /\
   time_elapsed new = Some (incrementTime (time_elapsed old)) /\
   job_id new = job_id old /\
   job_name new = job_name old /\
   submit_dir new = submit_dir old /\
   state new = state old /\
   cpus new = cpus old /\
   nodes new = nodes old /\
   time_requested new = time_requested old)
  \/ (state old <> "R" /\ new = old).

(** A field of exactly two decimal digits. *)
Definition two_digits (s : string) : bool :=
  Nat.eqb (String.length s) 2 && all_digits 10 s.

(** [HH:MM:SS] with three two-digit fields, and the same after a day
    prefix [D-]. *)
Definition canonical_time (s : string) : bool :=
  match split s ":" with
  | [h; m; sec] => two_digits h && two_digits m && two_digits sec
  | _ => false
  end.

Definition canonical (s : string) : bool :=
  match split s "-" with
  | [t] => canonical_time t
  | [d; t] => negb (String.eqb d "") && all_digits 10 d && canonical_time t
  | _ => false
  end.

(** A field of a well-formed duration: decimal digits, at least one. *)
Definition digit_field (s : string) : Prop :=
  s <> "" /\ all_digits 10 s = true.

(** Value of a digit field. *)
Definition field_value (s : string) : Z := digits_value 10 s 0.

(** The largest integer below which every integer is a double. *)
Definition safe : Z := 2 ^ 53.

(** The number an integer denotes. *)
Definition int (z : Z) : number := Fin (inject_Z z).

(** [H:M:S] and [D-H:M:S]. *)
Definition hms (H M S : string) : string := H ++ ":" ++ M ++ ":" ++ S.
Definition dhms (D H M S : string) : string := D ++ "-" ++ hms H M S.

(** A natural number printed on two digits at least. *)
Definition pad2 (n : Z) : string := padStart (decimal n) 2 "0".

(** One second more on hours, minutes and seconds, the carries as
    [incrementTime] takes them: seconds and minutes restart from 0 at 60. *)
Definition carry (h m s : Z) : Z * Z * Z :=
  let s1 := s + 1 in
  let '(s2, m1) := if 60 <=? s1 then (0, m + 1) else (s1, m) in
  let '(m2, h1) := if 60 <=? m1 then (0, h + 1) else (m1, h) in
  (h1, m2, s2).

(** The carry into the day prefix [D], taken when the hours have reached
    24: the hours restart from 0 and the prefix is the next number. *)
Definition day_carry (D : string) (h : Z) : string * Z :=
  if 24 <=? h then (decimal (field_value D + 1), 0) else (D, h).

(** A duration string given by its fields, the day prefix optional. *)
Definition duration (D : option string) (H M S : string) : string :=
  match D with
  | Some d => dhms d H M S
  | None => hms H M S
  end.

Definition well_formed (D : option string) (H M S : string) : Prop :=
  digit_field H /\ digit_field M /\ digit_field S /\
  match D with Some d => digit_field d | None => True end.

Definition seconds (d h m s : Z) : Z := d * 86400 + h * 3600 + m * 60 + s.

Definition total_seconds (D : option string) (H M S : string) : Z :=
  seconds (match D with Some d => field_value d | None => 0 end)
          (field_value H) (field_value M) (field_value S).

(** The day prefix and the three fields [incrementTime] is to print. *)
Definition incremented (D : option string) (H M S : string)
    : option string * Z * Z * Z :=
  let '(h1, m', s') := carry (field_value H) (field_value M) (field_value S) in
  match D with
  | None => (None, h1, m', s')
  | Some d => let '(d', h') := day_carry d h1 in (Some d', h', m', s')
  end.

(** What is left of a duration string after the optional day prefix, and
    its colon-separated fields. *)
Definition time_part (t : string) : string :=
  if includes t "-" then nth 1 (split t "-") "" else t.

Definition time_fields (t : string) : list string := split (time_part t) ":".

(** The nearest hundredth, the larger one on a tie. *)
Definition round2 (x : number) : number :=
  match x with
  | Fin q => rnd (Qmake (Qfloor (q * 100 + (1 # 2))%Q) 100)
  | _ => x
  end.

(** The elapsed time after [n] ticks of a running job. *)
Fixpoint ticks (n : nat) (t : string) : string :=
  match n with
  | O => t
  | S k => incrementTime (Some (ticks k t))
  end.

(** The display of [d] days, [h] hours, [m] minutes and [s] seconds: the
    units from the largest one that is not zero down to the seconds. *)
Definition clock_text (d h m s : Z) : string :=
  if 0 <? d then
    join " " [decimal d ++ "d"; decimal h ++ "h"; decimal m ++ "m"; decimal s ++ "s"]
  else if 0 <? h then
    join " " [decimal h ++ "h"; decimal m ++ "m"; decimal s ++ "s"]
  else if 0 <? m then
    join " " [decimal m ++ "m"; decimal s ++ "s"]
  else decimal s ++ "s".

(** The folders of a path: its non-empty parts between slashes. *)
Definition folders (path : string) : list string :=
  filter (fun p => ToBoolean (Str p)) (split path "/").

(** A folder name: not empty, no slash. *)
Definition folder (s : string) : Prop := s <> "" /\ includes s "/" = false.

(** The path [/f1/f2/.../fn]. *)
Fixpoint path_of (l : list string) : string :=
  match l with
  | [] => ""
  | f :: t => "/" ++ f ++ path_of t
  end.

(** Job [jobId] is in the list. *)
Definition listed (c : component) (jobId : string) : bool :=
  existsb (fun j => String.eqb (job_id j) jobId) (jobs c).

(* ================================================================== *)
(** * 8. The job list: ticks, snapshot and cancel requests *)
(* ================================================================== *)

Section JobList.

Lemma string_eqb_refl (s : string) : String.eqb s s = true.
Proof. apply String.eqb_eq. reflexivity. Qed.

Lemma tick_jobs_ticked (l : list job) :
  Forall2 ticked l
    (map (fun job =>
            if String.eqb (state job) "R"
            then with_time_elapsed job (incrementTime (time_elapsed job))
            else job) l).
Proof.
  induction l as [|j l IH]; simpl; constructor; auto.
  destruct (String.eqb (state j) "R") eqn:E.
  - left. apply String.eqb_eq in E.
    split; [exact E|]. cbn [with_time_elapsed time_elapsed job_id job_name
      submit_dir state cpus nodes time_requested].
    repeat split.
  - right. apply String.eqb_neq in E. auto.
Qed.

(** C7. On a tick every job whose state is ["R"] has
    [incrementTime(time_elapsed)] as its new elapsed time and each of its
    other fields (id, name, submit directory, state, cpus, nodes, requested
    time) as before; every other job is identical to what it was; the list
    keeps its length and order, and no other cell of the component
    changes. *)
Theorem tick_running_jobs_only (c : component) :
  Forall2 ticked (jobs c) (jobs (tick c)) /\
  List.length (jobs (tick c)) = List.length (jobs c) /\
  map job_id (jobs (tick c)) = map job_id (jobs c) /\
  loading (tick c) = loading c /\
  error (tick c) = error c /\
  isCanceling (tick c) = isCanceling c /\
  requests (tick c) = requests c.
Proof.
  unfold tick, setJobs; simpl.
  repeat split.
  - apply tick_jobs_ticked.
  - apply length_map.
  - rewrite map_map. apply map_ext. intros j.
    destruct (String.eqb (state j) "R"); reflexivity.
Qed.

Lemma settle_failure (c : component) (r : reply) (msg : string)
    (k : component -> body -> component) :
  failure_message r = Some msg -> settle c r k = setError c msg.
Proof.
  destruct r as [m|d]; simpl.
  - intros [= ->]. reflexivity.
  - destruct (ToBoolean (data_error d)); [intros [= <-]; reflexivity | discriminate].
Qed.

(** C8. When the job-list request fails with message [msg] (the chain is
    rejected, or the body has a truthy [error]), the job list is the one
    held before, the error cell holds [msg], loading is over, and the
    component renders the error paragraph whenever [msg] is not empty. *)
Theorem jobs_fetch_failure_keeps_jobs (c : component) (r : reply) (msg : string) :
  failure_message r = Some msg ->
  jobs (jobs_settled c r) = jobs c /\
  error (jobs_settled c r) = Some msg /\
  loading (jobs_settled c r) = false /\
  (msg <> "" -> render (jobs_settled c r) = ErrorText msg).
Proof.
  intros H. unfold jobs_settled. rewrite (settle_failure _ _ _ _ H).
  simpl. repeat split.
  intros Hne. unfold render; simpl.
  destruct (String.eqb msg "") eqn:E; [apply String.eqb_eq in E; contradiction|].
  reflexivity.
Qed.

Lemma jobs_fetch_failure_keeps_jobs_witness :
  let c := mkComponent [mkJob "7" "sim" None "R" 4 1 (Some "0:00:10") (Some "1:00:00")]
                       true None None [GetJobs] in
  jobs (jobs_settled c (Rejected "Failed to fetch")) = jobs c /\
  error (jobs_settled c (Rejected "Failed to fetch")) = Some "Failed to fetch" /\
  loading (jobs_settled c (Rejected "Failed to fetch")) = false /\
  ("Failed to fetch" <> "" ->
   render (jobs_settled c (Rejected "Failed to fetch")) = ErrorText "Failed to fetch").
Proof.
  intro c.
  apply (jobs_fetch_failure_keeps_jobs c (Rejected "Failed to fetch") "Failed to fetch").
  reflexivity.
Defined.

(** C9. When the cancel request of [jobId] fails with message [msg], the
    error cell holds [msg] and the job list is the one held before, so a
    listed job with that id is still listed; and however the request
    settles, the in-flight marker is [null] afterwards. *)
Theorem cancel_failure_keeps_jobs (c : component) (jobId : string)
    (r : reply) (msg : string) :
  failure_message r = Some msg ->
  error (cancel_settled c jobId r) = Some msg /\
  jobs (cancel_settled c jobId r) = jobs c /\
  (forall j, In j (jobs c) -> job_id j = jobId ->
             In j (jobs (cancel_settled c jobId r))) /\
  (forall r', isCanceling (cancel_settled c jobId r') = None).
Proof.
  intros H. unfold cancel_settled. rewrite (settle_failure _ _ _ _ H).
  simpl. repeat split; auto.
Qed.

Lemma cancel_failure_keeps_jobs_witness :
  let c := mkComponent [mkJob "C" "sim" None "R" 4 1 (Some "0:00:10") (Some "1:00:00")]
                       false None (Some "C") [GetJobs; PostCancel "C"] in
  let r := Fulfilled (mkBody (Str "scancel: permission denied") None) in
  error (cancel_settled c "C" r) = Some "scancel: permission denied" /\
  jobs (cancel_settled c "C" r) = jobs c /\
  (forall j, In j (jobs c) -> job_id j = "C" ->
             In j (jobs (cancel_settled c "C" r))) /\
  (forall r', isCanceling (cancel_settled c "C" r') = None).
Proof.
  intros c r.
  apply (cancel_failure_keeps_jobs c "C" r "scancel: permission denied").
  reflexivity.
Defined.

Lemma click_spec (c : component) (jobId : string) :
  click c jobId = if cancel_enabled c jobId then cancelJob c jobId else c.
Proof.
  unfold click, cancel_enabled. destruct (render c); reflexivity.
Qed.

Lemma no_enabled_button_while_canceling (c : component) (jobId : string) (l : list job) :
  isCanceling c = Some jobId ->
  existsb (fun r => String.eqb (row_id r) jobId && negb (cancel_disabled r))
          (map (render_row c) l) = false.
Proof.
  intros H. induction l as [|j l IH]; simpl; auto.
  rewrite IH, H, Bool.orb_false_r. simpl.
  destruct (String.eqb (job_id j) jobId) eqn:E; simpl; auto.
  apply String.eqb_eq in E. rewrite E, string_eqb_refl. reflexivity.
Qed.

Lemma cancel_disabled_while_canceling (c : component) (jobId : string) :
  isCanceling c = Some jobId -> cancel_enabled c jobId = false.
Proof.
  intros H. unfold cancel_enabled, render.
  pose proof (no_enabled_button_while_canceling c jobId (jobs c) H) as E.
  destruct (loading c); auto.
  destruct (error c) as [msg|]; [destruct (ToBoolean (Str msg)); auto|];
    destruct (jobs c); auto.
Qed.

Lemma cancel_calls_cancelJob (c : component) (jobId : string) :
  cancel_calls jobId (cancelJob c jobId) = S (cancel_calls jobId c).
Proof.
  unfold cancel_calls, cancelJob, fetch; simpl.
  rewrite filter_app, length_app; simpl.
  rewrite string_eqb_refl; simpl. lia.
Qed.

(** C1, as the code has it.  [cancelJob] has no guard of its own; the guard
    is the button, which is disabled while the marker holds its job's id.
    Two clicks in immediate succession on the button of one job are one
    click: the second changes nothing, raises nothing, and the clicks send
    one request if the button was enabled and none otherwise. *)
Theorem double_click_sends_one_request (c : component) (jobId : string) :
  click (click c jobId) jobId = click c jobId /\
  cancel_calls jobId (click (click c jobId) jobId) =
    (cancel_calls jobId c + (if cancel_enabled c jobId then 1 else 0))%nat.
Proof.
  assert (E : click (click c jobId) jobId = click c jobId).
  { rewrite (click_spec c). destruct (cancel_enabled c jobId) eqn:En.
    - rewrite click_spec, cancel_disabled_while_canceling; reflexivity.
    - rewrite click_spec, En. reflexivity. }
  split; [exact E|]. rewrite E, click_spec.
  destruct (cancel_enabled c jobId).
  - rewrite cancel_calls_cancelJob. lia.
  - lia.
Qed.

(** C1, as stated, fails: a second [cancelJob] for job 42, made while the
    first request is pending and the marker holds 42, sends a second
    request. *)
Lemma cancelJob_twice_sends_two_requests :
  let c := mkComponent [mkJob "42" "sim" None "R" 4 1 (Some "0:00:10") (Some "1:00:00")]
                       false None None [GetJobs] in
  isCanceling (cancelJob c "42") = Some "42" /\
  requests (cancelJob (cancelJob c "42") "42") =
    [GetJobs; PostCancel "42"; PostCancel "42"] /\
  cancel_calls "42" (cancelJob (cancelJob c "42") "42") <> 1%nat.
Proof. repeat split. discriminate. Qed.

End JobList.

(* ================================================================== *)
(** * 9. Integers as doubles *)
(* ================================================================== *)

Section SafeIntegers.

Lemma Qred_inject_Z (z : Z) : Qred (inject_Z z) = inject_Z z.
Proof.
  unfold Qred, inject_Z.
  pose proof (Z.ggcd_gcd z 1) as Hg.
  pose proof (Z.ggcd_correct_divisors z 1) as Hd.
  destruct (Z.ggcd z 1) as [g [aa bb]]. simpl in *.
  rewrite Z.gcd_1_r in Hg. subst g. destruct Hd as [Ha Hb].
  rewrite Z.mul_1_l in Ha, Hb. subst. reflexivity.
Qed.

Lemma div_half_even_1 (n : Z) : div_half_even n 1 = n.
Proof.
  unfold div_half_even. rewrite Z.mod_1_r, Z.div_1_r. reflexivity.
Qed.

Lemma ilog2_integer (z : Z) : 0 < z -> ilog2 z 1 = Z.log2 z.
Proof.
  intros Hz. unfold ilog2. rewrite Z.log2_1, Z.sub_0_r.
  pose proof (Z.log2_nonneg z) as Hn.
  pose proof (Z.log2_spec z Hz) as [Hlo _].
  destruct (0 <=? Z.log2 z) eqn:E; [|apply Z.leb_gt in E; lia].
  rewrite Z.mul_1_l.
  destruct (2 ^ Z.log2 z <=? z) eqn:E'; [reflexivity|apply Z.leb_gt in E'; lia].
Qed.

(** A natural number below 2^53 is a double: rounding keeps it. *)
Lemma rnd_inject_Z (z : Z) : 0 <= z < safe -> rnd (inject_Z z) = int z.
Proof.
  intros [H0 Hs]. unfold rnd. rewrite Qred_inject_Z.
  cbv zeta. change (Qnum (inject_Z z)) with z.
  change (Z.pos (Qden (inject_Z z))) with 1.
  destruct (Z.eq_dec z 0) as [->|Hnz]; [reflexivity|].
  assert (Hpos : 0 < z) by lia.
  rewrite Z.abs_eq by lia.
  destruct (z =? 0) eqn:E0; [apply Z.eqb_eq in E0; lia|].
  rewrite (ilog2_integer z Hpos).
  assert (HL : Z.log2 z < 53) by (apply Z.log2_lt_pow2; [lia|exact Hs]).
  pose proof (Z.log2_nonneg z) as HL0.
  rewrite Z.max_l by lia.
  rewrite Z.sgn_pos by lia. rewrite !Z.mul_1_l.
  destruct (0 <=? Z.log2 z - 52) eqn:Esh.
  - apply Z.leb_le in Esh.
    replace (Z.log2 z - 52) with 0 by lia.
    change (2 ^ 0) with 1. rewrite div_half_even_1, Z.mul_1_r.
    destruct (2 ^ 1024 <=? z) eqn:Eo; [|reflexivity].
    apply Z.leb_le in Eo. unfold safe in Hs.
    assert (2 ^ 53 < 2 ^ 1024) by (apply Z.pow_lt_mono_r; lia). lia.
  - apply Z.leb_gt in Esh. rewrite div_half_even_1.
    set (k := - (Z.log2 z - 52)).
    assert (Hk : 0 < 2 ^ k) by (apply Z.pow_pos_nonneg; lia).
    unfold int. f_equal. rewrite <- (Qred_inject_Z z).
    apply Qred_complete. unfold Qeq, inject_Z; simpl.
    rewrite Z2Pos.id by exact Hk. lia.
Qed.

Lemma rnd_integer (q : Q) (z : Z) :
  q == inject_Z z -> 0 <= z < safe -> rnd q = int z.
Proof.
  intros Hq Hz. rewrite <- (rnd_inject_Z z Hz).
  unfold rnd. rewrite (Qred_complete _ _ Hq). reflexivity.
Qed.

Lemma of_Z_int (z : Z) : 0 <= z < safe -> of_Z z = int z.
Proof. apply rnd_inject_Z. Qed.

(** Sums and products of naturals are exact as long as they stay below
    2^53. *)
Lemma add_int (a b : Z) :
  0 <= a -> 0 <= b -> a + b < safe -> add (int a) (int b) = int (a + b).
Proof.
  intros Ha Hb Hs. unfold int at 1 2; simpl.
  apply rnd_integer; [|lia]. rewrite inject_Z_plus. reflexivity.
Qed.

Lemma mul_int (a b : Z) :
  0 <= a -> 0 <= b -> a * b < safe -> mul (int a) (int b) = int (a * b).
Proof.
  intros Ha Hb Hs. unfold int at 1 2; simpl.
  apply rnd_integer; [|lia]. rewrite inject_Z_mult. reflexivity.
Qed.

Lemma lt_int (a b : Z) : lt (int a) (int b) = (a <? b).
Proof.
  unfold lt, int, Qle_bool; simpl. rewrite !Z.mul_1_r.
  rewrite Z.ltb_antisym. reflexivity.
Qed.

Lemma ge_int (a b : Z) : ge (int a) (int b) = (b <=? a).
Proof.
  unfold ge. change (negb (lt (int a) (int b)) = (b <=? a)).
  rewrite lt_int, Z.ltb_antisym, Bool.negb_involutive. reflexivity.
Qed.

Lemma strict_eq_int (a b : Z) : strict_eq (int a) (int b) = (a =? b).
Proof.
  unfold strict_eq, int, Qeq_bool; simpl. rewrite !Z.mul_1_r. reflexivity.
Qed.

Lemma ToBoolean_int (a : Z) : ToBoolean (Num (int a)) = negb (a =? 0).
Proof. reflexivity. Qed.

(** [String(n)] of a natural number below 2^53 is its decimal expansion. *)
Lemma Number_toString_int (a : Z) :
  0 <= a < safe -> Number_toString (int a) = decimal a.
Proof.
  intros [H0 Hs]. unfold Number_toString, int. rewrite Qred_inject_Z.
  cbv zeta. unfold Qzero, Qneg, Qabs, inject_Z. cbn [Qnum Qden].
  destruct (a =? 0) eqn:E0.
  - apply Z.eqb_eq in E0. subst. reflexivity.
  - destruct (a <? 0) eqn:En; [apply Z.ltb_lt in En; lia|].
    rewrite Z.abs_eq by lia.
    destruct (a <? 2 ^ 53) eqn:E53; [reflexivity|].
    apply Z.ltb_ge in E53. unfold safe in Hs. lia.
Qed.

End SafeIntegers.

(* ================================================================== *)
(** * 10. Digit strings *)
(* ================================================================== *)

Lemma digit_inv (c : ascii) :
  is_digit 10 c = true ->
  In c ["0"; "1"; "2"; "3"; "4"; "5"; "6"; "7"; "8"; "9"]%char.
Proof.
  destruct c as [[] [] [] [] [] [] [] []]; vm_compute; intros H;
    try discriminate H; tauto.
Qed.

Ltac digit_cases H :=
  apply digit_inv in H; simpl in H;
  repeat (destruct H as [H|H]; [subst|]); [..|contradiction].

Section DigitStrings.

Lemma digit_not_ws (c : ascii) : is_digit 10 c = true -> is_ws c = false.
Proof. intros H. digit_cases H; reflexivity. Qed.

Lemma digit_not_sep (c : ascii) :
  is_digit 10 c = true ->
  Ascii.eqb c ":" = false /\ Ascii.eqb c "-" = false /\
  Ascii.eqb c "+" = false /\ Ascii.eqb c "." = false.
Proof. intros H. digit_cases H; repeat split. Qed.

Lemma digit_not_letter (c : ascii) :
  is_digit 10 c = true ->
  Ascii.eqb c "x" || Ascii.eqb c "X" = false /\
  Ascii.eqb c "o" || Ascii.eqb c "O" = false /\
  Ascii.eqb c "b" || Ascii.eqb c "B" = false /\
  Ascii.eqb c "I" = false.
Proof. intros H. digit_cases H; repeat split. Qed.

Lemma digit_of_range (c : ascii) :
  is_digit 10 c = true -> exists d, digit_of c = Some d /\ 0 <= d < 10.
Proof.
  intros H. digit_cases H; eexists; (split; [vm_compute; reflexivity|lia]).
Qed.

Lemma digit_char_digit (d : Z) :
  0 <= d < 10 ->
  is_digit 10 (digit_char d) = true /\ digit_of (digit_char d) = Some d.
Proof.
  intros H.
  assert (C : d = 0 \/ d = 1 \/ d = 2 \/ d = 3 \/ d = 4 \/ d = 5 \/ d = 6 \/
              d = 7 \/ d = 8 \/ d = 9) by lia.
  repeat (destruct C as [C|C]; [subst; split; reflexivity|]).
  subst; split; reflexivity.
Qed.

Lemma append_empty (s : string) : s ++ "" = s.
Proof. induction s; simpl; congruence. Qed.

Lemma append_assoc (a b c : string) : (a ++ b) ++ c = a ++ (b ++ c).
Proof. induction a; simpl; congruence. Qed.

Lemma length_append (a b : string) :
  String.length (a ++ b) = (String.length a + String.length b)%nat.
Proof. induction a; simpl; congruence. Qed.

Lemma all_digits_append (r : Z) (a b : string) :
  all_digits r (a ++ b) = all_digits r a && all_digits r b.
Proof.
  induction a as [|c a IH]; simpl; [reflexivity|].
  rewrite IH, Bool.andb_assoc. reflexivity.
Qed.

Lemma includes_append (a b : string) (c : ascii) :
  includes (a ++ b) c = includes a c || includes b c.
Proof.
  induction a as [|x a IH]; simpl; [reflexivity|].
  rewrite IH, Bool.orb_assoc. reflexivity.
Qed.

Lemma digits_exclude_separators (s : string) :
  all_digits 10 s = true -> includes s ":" = false /\ includes s "-" = false.
Proof.
  induction s as [|c s IH]; simpl; [auto|].
  intros H. apply Bool.andb_true_iff in H as [Hc Hs].
  destruct (IH Hs) as [I1 I2].
  destruct (digit_not_sep c Hc) as (E1 & E2 & _).
  rewrite E1, E2, I1, I2. auto.
Qed.

(** Splitting at a separator the first part does not contain. *)
Lemma split_first (a b : string) (sep : ascii) :
  includes a sep = false ->
  split (a ++ String sep b) sep = a :: split b sep.
Proof.
  unfold split. induction a as [|c a IH]; simpl; intros H.
  - rewrite Ascii.eqb_refl. destruct (split_parts b sep). reflexivity.
  - apply Bool.orb_false_iff in H as [Hc Ha].
    specialize (IH Ha).
    destruct (split_parts (a ++ String sep b) sep) as [h l].
    destruct (split_parts b sep) as [h' l']. rewrite Hc.
    injection IH as -> ->. reflexivity.
Qed.

Lemma split_none (a : string) (sep : ascii) :
  includes a sep = false -> split a sep = [a].
Proof.
  unfold split. induction a as [|c a IH]; simpl; intros H; [reflexivity|].
  apply Bool.orb_false_iff in H as [Hc Ha]. specialize (IH Ha).
  destruct (split_parts a sep) as [h l]. rewrite Hc.
  injection IH as -> ->. reflexivity.
Qed.

(** A string that contains the separator splits in two parts at least, so
    the second element read by the destructuring is a string. *)
Lemma split_includes (s : string) (sep : ascii) :
  includes s sep = true -> (2 <= List.length (split s sep))%nat.
Proof.
  unfold split. induction s as [|c s IH]; simpl; [discriminate|].
  destruct (split_parts s sep) as [h l].
  destruct (Ascii.eqb c sep); simpl in *; intros H; [lia|auto].
Qed.

Lemma trim_start_digits (s : string) :
  all_digits 10 s = true -> trim_start s = s.
Proof.
  destruct s as [|c s]; simpl; [reflexivity|].
  intros H. apply Bool.andb_true_iff in H as [Hc _].
  rewrite (digit_not_ws c Hc). reflexivity.
Qed.

Lemma trim_end_digits (s : string) :
  all_digits 10 s = true -> trim_end s = s.
Proof.
  induction s as [|c s IH]; simpl; [reflexivity|].
  intros H. apply Bool.andb_true_iff in H as [Hc Hs].
  rewrite (IH Hs), (digit_not_ws c Hc). destruct s; reflexivity.
Qed.

Lemma trim_digits (s : string) : all_digits 10 s = true -> trim s = s.
Proof.
  intros H. unfold trim. rewrite (trim_start_digits s H).
  apply trim_end_digits, H.
Qed.

Lemma span_digits_all (s : string) :
  all_digits 10 s = true -> span_digits 10 s = (s, "").
Proof.
  induction s as [|c s IH]; simpl; [reflexivity|].
  intros H. apply Bool.andb_true_iff in H as [Hc Hs].
  rewrite Hc, (IH Hs). reflexivity.
Qed.

Lemma radix_prefix_digits (s : string) :
  all_digits 10 s = true -> radix_prefix s = None.
Proof.
  destruct s as [|a [|c t]]; simpl; intros H.
  - reflexivity.
  - destruct a as [[] [] [] [] [] [] [] []]; reflexivity.
  - apply Bool.andb_true_iff in H as [Ha H].
    apply Bool.andb_true_iff in H as [Hc _].
    destruct (digit_not_letter c Hc) as (E1 & E2 & E3 & _).
    digit_cases Ha; try reflexivity. rewrite E1, E2, E3. reflexivity.
Qed.

Lemma strip_sign_digits (s : string) :
  all_digits 10 s = true -> strip_sign s = (false, s).
Proof.
  destruct s as [|c s]; simpl; [reflexivity|].
  intros H. apply Bool.andb_true_iff in H as [Hc _].
  digit_cases Hc; reflexivity.
Qed.

Lemma digits_not_Infinity (s : string) :
  all_digits 10 s = true -> String.eqb s "Infinity" = false.
Proof.
  destruct s as [|c s]; simpl; [reflexivity|].
  intros H. apply Bool.andb_true_iff in H as [Hc _].
  digit_cases Hc; reflexivity.
Qed.

Lemma digits_value_nonneg (s : string) (acc : Z) :
  all_digits 10 s = true -> 0 <= acc -> 0 <= digits_value 10 s acc.
Proof.
  revert acc. induction s as [|c s IH]; simpl; intros acc H Ha; [exact Ha|].
  apply Bool.andb_true_iff in H as [Hc Hs].
  destruct (digit_of_range c Hc) as (d & -> & Hd).
  apply IH; [exact Hs|lia].
Qed.

Lemma field_value_nonneg (s : string) :
  all_digits 10 s = true -> 0 <= field_value s.
Proof. intros H. apply digits_value_nonneg; [exact H|lia]. Qed.

(** [Number(s)] of a digit field is the double nearest its value. *)
Lemma StringToNumber_digits (s : string) :
  digit_field s -> StringToNumber s = of_Z (field_value s).
Proof.
  intros [Hne H]. unfold StringToNumber.
  rewrite (trim_digits s H).
  destruct s as [|c t]; [contradiction|].
  rewrite (radix_prefix_digits _ H).
  unfold StrDecimalLiteral.
  rewrite (strip_sign_digits _ H), (digits_not_Infinity _ H), (span_digits_all _ H).
  rewrite append_empty. cbn [exponent_part String.length Z.of_nat].
  unfold scale10, of_Z, field_value.
  change (0 - 0) with 0. change (0 <=? 0) with true. cbv iota.
  change (10 ^ 0) with 1. rewrite Z.mul_1_r. reflexivity.
Qed.

Lemma StringToNumber_field (s : string) :
  digit_field s -> field_value s < safe -> StringToNumber s = int (field_value s).
Proof.
  intros Hd Hs. rewrite (StringToNumber_digits s Hd).
  apply of_Z_int. split; [apply field_value_nonneg, Hd|exact Hs].
Qed.

(** [parseInt(s)] and [parseInt(s, 10)] of a digit field. *)
Lemma parseInt_field (s : string) (radix : option Z) :
  digit_field s -> field_value s < safe ->
  radix = None \/ radix = Some 10 ->
  parseInt s radix = int (field_value s).
Proof.
  intros [Hne H] Hs Hr. unfold parseInt.
  rewrite (trim_start_digits s H), (strip_sign_digits s H).
  assert (Hr' : match radix with Some 0 => None | _ => radix end = radix)
    by (destruct Hr as [-> | ->]; reflexivity).
  cbv zeta. rewrite Hr'.
  assert (E : (let (R, u) :=
                 match s with
                 | String "0" (String c t) =>
                     if match radix with Some r => r =? 16 | None => true end &&
                        (Ascii.eqb c "x" || Ascii.eqb c "X")
                     then (16, t) else (10, s)
                 | _ => (10, s)
                 end in
               let (ds, _) := span_digits R u in
               match ds with
               | "" => NaN
               | _ => of_Z (digits_value R ds 0)
               end) = int (field_value s)).
  { assert (P : match s with
                | String "0" (String c t) =>
                    if match radix with Some r => r =? 16 | None => true end &&
                       (Ascii.eqb c "x" || Ascii.eqb c "X")
                    then (16, t) else (10, s)
                | _ => (10, s)
                end = (10, s)).
    { destruct s as [|a [|c t]]; [reflexivity| |].
      - destruct a as [[] [] [] [] [] [] [] []]; reflexivity.
      - simpl in H. apply Bool.andb_true_iff in H as [Ha H].
        apply Bool.andb_true_iff in H as [Hc _].
        destruct (digit_not_letter c Hc) as (E1 & _).
        digit_cases Ha; try reflexivity.
        rewrite E1, Bool.andb_false_r. reflexivity. }
    rewrite P, (span_digits_all s H).
    destruct s as [|c t]; [contradiction|].
    apply of_Z_int. split; [apply field_value_nonneg, H|exact Hs]. }
  destruct Hr as [-> | ->]; exact E.
Qed.

End DigitStrings.

(* ================================================================== *)
(** * 11. Printing natural numbers *)
(* ================================================================== *)

Section Printing.

Lemma dec_digits_value (fuel : nat) :
  forall (n : Z) (acc : string),
    0 <= n < 2 ^ Z.of_nat fuel ->
    digits_value 10 (dec_digits fuel n acc) 0 = digits_value 10 acc n.
Proof.
  induction fuel as [|k IH]; intros n acc Hn.
  - simpl in *. replace n with 0 by lia. reflexivity.
  - cbn [dec_digits].
    assert (Hm : 0 <= n mod 10 < 10) by (apply Z.mod_pos_bound; lia).
    destruct (digit_char_digit (n mod 10) Hm) as [_ Hd].
    destruct (n <? 10) eqn:E.
    + apply Z.ltb_lt in E. cbn [digits_value]. rewrite Hd.
      rewrite Z.mod_small by lia. reflexivity.
    + apply Z.ltb_ge in E. rewrite IH.
      * cbn [digits_value]. rewrite Hd. f_equal.
        pose proof (Z.div_mod n 10). lia.
      * rewrite Nat2Z.inj_succ, Z.pow_succ_r in Hn by lia.
        split; [apply Z.div_pos; lia|].
        apply Z.div_lt_upper_bound; lia.
Qed.

Lemma dec_digits_all_digits (fuel : nat) :
  forall (n : Z) (acc : string),
    all_digits 10 acc = true -> all_digits 10 (dec_digits fuel n acc) = true.
Proof.
  induction fuel as [|k IH]; intros n acc Ha; [exact Ha|].
  cbn [dec_digits].
  assert (Hm : 0 <= n mod 10 < 10) by (apply Z.mod_pos_bound; lia).
  destruct (digit_char_digit (n mod 10) Hm) as [Hd _].
  assert (Hacc : all_digits 10 (String (digit_char (n mod 10)) acc) = true)
    by (cbn [all_digits]; rewrite Hd, Ha; reflexivity).
  destruct (n <? 10); [exact Hacc|apply IH, Hacc].
Qed.

Lemma dec_digits_length (fuel : nat) :
  forall (n : Z) (acc : string),
    (String.length acc <= String.length (dec_digits fuel n acc))%nat.
Proof.
  induction fuel as [|k IH]; intros n acc; [apply Nat.le_refl|].
  cbn [dec_digits]. destruct (n <? 10).
  - simpl. lia.
  - specialize (IH (n / 10) (String (digit_char (n mod 10)) acc)).
    simpl in IH. lia.
Qed.

Lemma dec_digits_length_S (k : nat) (n : Z) (acc : string) :
  (S (String.length acc) <= String.length (dec_digits (S k) n acc))%nat.
Proof.
  cbn [dec_digits]. destruct (n <? 10); [simpl; lia|].
  pose proof (dec_digits_length k (n / 10) (String (digit_char (n mod 10)) acc)) as L.
  simpl in L. exact L.
Qed.

Lemma decimal_fuel (n : Z) : 0 <= n -> n < 2 ^ Z.of_nat (S (Z.to_nat (Z.log2 n))).
Proof.
  intros Hn. rewrite Nat2Z.inj_succ, Z2Nat.id by apply Z.log2_nonneg.
  destruct (Z.eq_dec n 0) as [->|Hnz]; [reflexivity|].
  apply Z.log2_spec. lia.
Qed.

(** Reading back what was printed. *)
Lemma decimal_value (n : Z) : 0 <= n -> field_value (decimal n) = n.
Proof.
  intros Hn. unfold field_value, decimal.
  rewrite dec_digits_value; [reflexivity|].
  split; [exact Hn|apply decimal_fuel, Hn].
Qed.

Lemma decimal_digits (n : Z) : all_digits 10 (decimal n) = true.
Proof. apply dec_digits_all_digits. reflexivity. Qed.

Lemma decimal_small (n : Z) :
  0 <= n < 10 -> decimal n = String (digit_char n) "".
Proof.
  intros Hn. unfold decimal. cbn [dec_digits].
  destruct (n <? 10) eqn:E; [|apply Z.ltb_ge in E; lia].
  rewrite Z.mod_small by lia. reflexivity.
Qed.

Lemma decimal_long (n : Z) : 10 <= n -> (2 <= String.length (decimal n))%nat.
Proof.
  intros Hn. unfold decimal.
  assert (Hl : 3 <= Z.log2 n) by (apply (Z.log2_le_mono 8 n); lia).
  destruct (Z.to_nat (Z.log2 n)) as [|k] eqn:Ek; [lia|].
  cbn [dec_digits].
  destruct (n <? 10) eqn:E; [apply Z.ltb_lt in E; lia|].
  pose proof (dec_digits_length_S k (n / 10) (String (digit_char (n mod 10)) "")) as L.
  simpl String.length in L at 1. exact L.
Qed.

Lemma decimal_two (n : Z) :
  10 <= n < 100 ->
  decimal n = String (digit_char (n / 10)) (String (digit_char (n mod 10)) "").
Proof.
  intros Hn. unfold decimal.
  assert (Hl : 3 <= Z.log2 n) by (apply (Z.log2_le_mono 8 n); lia).
  destruct (Z.to_nat (Z.log2 n)) as [|k] eqn:Ek; [lia|].
  cbn [dec_digits].
  destruct (n <? 10) eqn:E; [apply Z.ltb_lt in E; lia|].
  assert (Hq : 0 <= n / 10 < 10).
  { split; [apply Z.div_pos; lia|apply Z.div_lt_upper_bound; lia]. }
  destruct (n / 10 <? 10) eqn:E'; [|apply Z.ltb_ge in E'; lia].
  rewrite (Z.mod_small (n / 10)) by lia. reflexivity.
Qed.

Lemma decimal_nonempty (n : Z) : decimal n <> "".
Proof.
  unfold decimal. cbn [dec_digits]. destruct (n <? 10); [discriminate|].
  intros H.
  pose proof (dec_digits_length (Z.to_nat (Z.log2 n)) (n / 10)
                (String (digit_char (n mod 10)) "")) as L.
  rewrite H in L. simpl in L. lia.
Qed.

Lemma decimal_field (n : Z) : digit_field (decimal n).
Proof. split; [apply decimal_nonempty|apply decimal_digits]. Qed.

(** [padStart(2, "0")] on a printed natural number. *)
Lemma pad2_small (n : Z) :
  0 <= n < 10 -> pad2 n = String "0" (String (digit_char n) "").
Proof. intros Hn. unfold pad2. rewrite (decimal_small n Hn). reflexivity. Qed.

Lemma pad2_long (n : Z) : 10 <= n -> pad2 n = decimal n.
Proof.
  intros Hn. unfold pad2, padStart.
  pose proof (decimal_long n Hn) as L.
  replace (2 - String.length (decimal n))%nat with 0%nat by lia.
  reflexivity.
Qed.

Lemma pad2_field (n : Z) : 0 <= n -> digit_field (pad2 n).
Proof.
  intros Hn. destruct (Z_lt_le_dec n 10) as [Hlt|Hge].
  - rewrite pad2_small by lia. split; [discriminate|].
    cbn [all_digits]. destruct (digit_char_digit n) as [-> _]; [lia|reflexivity].
  - rewrite pad2_long by lia. apply decimal_field.
Qed.

Lemma pad2_value (n : Z) : 0 <= n -> field_value (pad2 n) = n.
Proof.
  intros Hn. destruct (Z_lt_le_dec n 10) as [Hlt|Hge].
  - rewrite pad2_small by lia. unfold field_value. cbn [digits_value].
    destruct (digit_char_digit n) as [_ ->]; [lia|reflexivity].
  - rewrite pad2_long by lia. apply decimal_value, Hn.
Qed.

Lemma pad2_two_digits (n : Z) : 0 <= n < 100 -> two_digits (pad2 n) = true.
Proof.
  intros Hn. unfold two_digits.
  destruct (pad2_field n) as [_ ->]; [lia|]. rewrite Bool.andb_true_r.
  destruct (Z_lt_le_dec n 10) as [Hlt|Hge].
  - rewrite pad2_small by lia. reflexivity.
  - rewrite pad2_long, decimal_two by lia. reflexivity.
Qed.

Lemma pad2_length (n : Z) : (2 <= String.length (pad2 n))%nat.
Proof.
  unfold pad2, padStart. rewrite length_append.
  assert (E : forall k, String.length (repeat_char "0" k) = k)
    by (induction k; simpl; congruence).
  rewrite E. lia.
Qed.

Lemma pad2_three_digits (n : Z) : 100 <= n -> (3 <= String.length (pad2 n))%nat.
Proof.
  intros Hn. rewrite pad2_long by lia. unfold decimal.
  assert (Hl : 6 <= Z.log2 n) by (apply (Z.log2_le_mono 64 n); lia).
  destruct (Z.to_nat (Z.log2 n)) as [|[|k]] eqn:Ek; [lia|lia|].
  cbn [dec_digits].
  destruct (n <? 10) eqn:E; [apply Z.ltb_lt in E; lia|].
  destruct (n / 10 <? 10) eqn:E'.
  { apply Z.ltb_lt in E'. pose proof (Z.div_mod n 10).
    pose proof (Z.mod_pos_bound n 10). lia. }
  pose proof (dec_digits_length_S k (n / 10 / 10)
    (String (digit_char ((n / 10) mod 10)) (String (digit_char (n mod 10)) ""))) as L.
  simpl String.length in L at 1. exact L.
Qed.

End Printing.

(* ================================================================== *)
(** * 12. Durations with digit fields *)
(* ================================================================== *)

Section Durations.

Variables H M S : string.
Hypothesis HH : digit_field H.
Hypothesis HM : digit_field M.
Hypothesis HS : digit_field S.

Let h := field_value H.
Let m := field_value M.
Let s := field_value S.

Lemma hms_no_dash : includes (hms H M S) "-" = false.
Proof.
  unfold hms. destruct HH as [_ A], HM as [_ B], HS as [_ C].
  apply digits_exclude_separators in A, B, C.
  rewrite !includes_append. cbn [includes].
  destruct A as [_ ->], B as [_ ->], C as [_ ->]. reflexivity.
Qed.

Lemma hms_split : split (hms H M S) ":" = [H; M; S].
Proof.
  unfold hms. destruct HH as [_ A], HM as [_ B], HS as [_ C].
  apply digits_exclude_separators in A, B, C.
  change (":" ++ M ++ ":" ++ S) with (String ":" (M ++ String ":" S)).
  rewrite split_first by apply A.
  rewrite split_first by apply B.
  rewrite split_none by apply C. reflexivity.
Qed.

Lemma hms_truthy : negb (ToBoolean (Str (hms H M S))) = false.
Proof.
  unfold hms. destruct HH as [A _]. destruct H; [contradiction|reflexivity].
Qed.

Lemma field_nonneg : 0 <= h /\ 0 <= m /\ 0 <= s.
Proof.
  repeat split; apply field_value_nonneg; [apply HH|apply HM|apply HS].
Qed.

End Durations.

(* ================================================================== *)
(** * 13. [incrementTime] and [toSeconds] on well-formed durations *)
(* ================================================================== *)

Section Codec.

Ltac branch :=
  match goal with
  | |- context [if (?a <=? ?b) then _ else _] =>
      let E := fresh "E" in destruct (a <=? b) eqn:E
  end; cbv beta iota zeta.

Ltac constants :=
  change (Fin 1) with (int 1); change (Fin 60) with (int 60);
  change (Fin 0) with (int 0); change (Fin 24) with (int 24);
  change (Fin 86400) with (int 86400); change (Fin 3600) with (int 3600).

Lemma ToBoolean_int_pos (a : Z) : 0 < a -> ToBoolean (Num (int a)) = true.
Proof.
  intros Ha. rewrite ToBoolean_int.
  destruct (a =? 0) eqn:E; [apply Z.eqb_eq in E; lia|reflexivity].
Qed.

(** The result of [incrementTime] on [H:M:S]. *)
Lemma incrementTime_hms (H M S : string) :
  digit_field H -> digit_field M -> digit_field S ->
  field_value H + 1 < safe -> field_value M + 1 < safe ->
  field_value S + 1 < safe ->
  incrementTime (Some (hms H M S)) =
    let '(h', m', s') := carry (field_value H) (field_value M) (field_value S) in
    hms (pad2 h') (pad2 m') (pad2 s').
Proof.
  intros HH HM HS Bh Bm Bs.
  destruct (field_nonneg H M S HH HM HS) as (Ph & Pm & Ps).
  unfold incrementTime.
  rewrite (hms_truthy H M S HH), (hms_no_dash H M S HH HM HS).
  cbv beta iota zeta.
  rewrite (hms_split H M S HH HM HS).
  unfold item. cbn [map nth_error ToNumber].
  rewrite !StringToNumber_field by (assumption || lia).
  constants.
  rewrite (add_int (field_value S) 1) by lia.
  rewrite ge_int. unfold carry.
  branch; cbn [ToNumber]; rewrite ?add_int by lia; rewrite ge_int;
    branch; cbn [ToNumber ToBoolean andb ToString];
    rewrite ?add_int by lia;
    rewrite ?Number_toString_int by (unfold safe in *; lia);
    reflexivity.
Qed.

Lemma dhms_split (D H M S : string) :
  digit_field D -> digit_field H -> digit_field M -> digit_field S ->
  includes (dhms D H M S) "-" = true /\
  split (dhms D H M S) "-" = [D; hms H M S] /\
  negb (ToBoolean (Str (dhms D H M S))) = false.
Proof.
  intros HD HH HM HS. unfold dhms.
  change ("-" ++ hms H M S) with (String "-" (hms H M S)).
  destruct HD as [Dne Dd].
  destruct (digits_exclude_separators D Dd) as [_ Dn].
  repeat split.
  - rewrite includes_append. cbn [includes]. rewrite Ascii.eqb_refl.
    apply Bool.orb_true_r.
  - rewrite split_first by exact Dn.
    rewrite split_none by (apply hms_no_dash; assumption). reflexivity.
  - destruct D; [contradiction|reflexivity].
Qed.

(** The result of [incrementTime] on [D-H:M:S]. *)
Lemma incrementTime_dhms (D H M S : string) :
  digit_field D -> digit_field H -> digit_field M -> digit_field S ->
  field_value D + 1 < safe ->
  field_value H + 1 < safe -> field_value M + 1 < safe ->
  field_value S + 1 < safe ->
  incrementTime (Some (dhms D H M S)) =
    let '(h1, m', s') := carry (field_value H) (field_value M) (field_value S) in
    let '(D', h') := day_carry D h1 in
    dhms D' (pad2 h') (pad2 m') (pad2 s').
Proof.
  intros HD HH HM HS Bd Bh Bm Bs.
  destruct (field_nonneg H M S HH HM HS) as (Ph & Pm & Ps).
  assert (Pd : 0 <= field_value D) by (apply field_value_nonneg, HD).
  destruct (dhms_split D H M S HD HH HM HS) as (I & Sp & T).
  unfold incrementTime. rewrite T, I. cbv beta iota zeta. rewrite Sp.
  unfold item at 1. cbn [nth_error nth].
  rewrite (hms_split H M S HH HM HS).
  unfold item. cbn [map nth_error ToNumber].
  rewrite !StringToNumber_field by (assumption || lia).
  constants.
  rewrite (add_int (field_value S) 1) by lia.
  rewrite ge_int. unfold carry, day_carry.
  assert (TD : ToBoolean (Str D) = true).
  { destruct HD as [Dne _]. destruct D; [contradiction|reflexivity]. }
  branch; cbn [ToNumber]; rewrite ?add_int by lia; rewrite ge_int;
    branch; cbn [ToNumber];
    rewrite ?add_int by lia; rewrite TD, ge_int; cbn [andb];
    branch; cbn [ToString];
    rewrite ?(parseInt_field D None) by (auto; lia);
    rewrite ?add_int by lia;
    rewrite ?TD, ?ToBoolean_int_pos by lia;
    rewrite ?Number_toString_int by (unfold safe in *; lia);
    reflexivity.
Qed.

(** [toSeconds] on [H:M:S] and on [D-H:M:S]. *)
Lemma toSeconds_hms (H M S : string) :
  digit_field H -> digit_field M -> digit_field S ->
  seconds 0 (field_value H) (field_value M) (field_value S) < safe ->
  toSeconds (Some (hms H M S)) =
    int (seconds 0 (field_value H) (field_value M) (field_value S)).
Proof.
  intros HH HM HS B. unfold seconds in *.
  destruct (field_nonneg H M S HH HM HS) as (Ph & Pm & Ps).
  unfold toSeconds.
  rewrite (hms_truthy H M S HH), (hms_no_dash H M S HH HM HS).
  cbv beta iota zeta.
  rewrite (hms_split H M S HH HM HS).
  unfold item. cbn [map nth_error ToNumber].
  rewrite !StringToNumber_field by (assumption || lia).
  constants.
  rewrite !mul_int by lia. rewrite !add_int by lia.
  reflexivity.
Qed.

Lemma toSeconds_dhms (D H M S : string) :
  digit_field D -> digit_field H -> digit_field M -> digit_field S ->
  seconds (field_value D) (field_value H) (field_value M) (field_value S) < safe ->
  toSeconds (Some (dhms D H M S)) =
    int (seconds (field_value D) (field_value H) (field_value M) (field_value S)).
Proof.
  intros HD HH HM HS B. unfold seconds in *.
  destruct (field_nonneg H M S HH HM HS) as (Ph & Pm & Ps).
  assert (Pd : 0 <= field_value D) by (apply field_value_nonneg, HD).
  destruct (dhms_split D H M S HD HH HM HS) as (I & Sp & T).
  unfold toSeconds. rewrite T, I. cbv beta iota zeta. rewrite Sp.
  cbn [nth].
  rewrite (hms_split H M S HH HM HS).
  unfold item. cbn [map nth_error ToNumber].
  rewrite !StringToNumber_field by (assumption || lia).
  rewrite (parseInt_field D (Some 10)) by (auto; lia).
  constants.
  rewrite !mul_int by lia. rewrite !add_int by lia.
  reflexivity.
Qed.

End Codec.

(* ================================================================== *)
(** * 14. The duration codec: what [incrementTime] prints and adds *)
(* ================================================================== *)

Section Increment.

Lemma canonical_hms (H M S : string) :
  digit_field H -> digit_field M -> digit_field S ->
  canonical (hms H M S) = two_digits H && two_digits M && two_digits S.
Proof.
  intros HH HM HS. unfold canonical.
  rewrite split_none by (apply hms_no_dash; assumption).
  unfold canonical_time. rewrite hms_split by assumption. reflexivity.
Qed.

Lemma canonical_dhms (D H M S : string) :
  digit_field D -> digit_field H -> digit_field M -> digit_field S ->
  canonical (dhms D H M S) = two_digits H && two_digits M && two_digits S.
Proof.
  intros HD HH HM HS. unfold canonical.
  destruct (dhms_split D H M S HD HH HM HS) as (_ & -> & _).
  unfold canonical_time. rewrite hms_split by assumption.
  destruct HD as [Dne ->]. destruct D; [contradiction|reflexivity].
Qed.

Lemma carry_range (h m s : Z) :
  0 <= h -> 0 <= m -> 0 <= s ->
  let '(h', m', s') := carry h m s in
  h <= h' <= h + 1 /\ 0 <= m' < 60 /\ 0 <= s' < 60.
Proof.
  intros Ph Pm Ps. unfold carry.
  destruct (60 <=? s + 1) eqn:Es;
    [apply Z.leb_le in Es|apply Z.leb_gt in Es];
    match goal with |- context [if ?c then _ else _] => destruct c eqn:Em end;
    [apply Z.leb_le in Em|apply Z.leb_gt in Em|apply Z.leb_le in Em|apply Z.leb_gt in Em];
    lia.
Qed.

Lemma two_digits_long (s : string) :
  (3 <= String.length s)%nat -> two_digits s = false.
Proof.
  intros L. unfold two_digits.
  destruct (Nat.eqb (String.length s) 2) eqn:E; [|reflexivity].
  apply Nat.eqb_eq in E. lia.
Qed.

(** C3, as the code has it.  For an empty or absent input the result is
    the literal ["0:00:01"], with a one-digit hours field.  For an input
    [[D-]H:M:S] whose fields are decimal digits (values below 2^53 - 1),
    the result is the day prefix, if the input has one, and three fields:
    minutes and seconds are below 60 and printed on exactly two digits;
    hours are zero-padded to two digits at least, so the result is in the
    canonical form exactly when the hours to print are below 100. *)
Theorem incrementTime_output_form (D : option string) (H M S : string) :
  well_formed D H M S ->
  field_value H + 1 < safe -> field_value M + 1 < safe ->
  field_value S + 1 < safe ->
  match D with Some d => field_value d + 1 < safe | None => True end ->
  incrementTime None = "0:00:01" /\
  incrementTime (Some "") = "0:00:01" /\
  let '(D', h', m', s') := incremented D H M S in
  incrementTime (Some (duration D H M S)) =
    duration D' (pad2 h') (pad2 m') (pad2 s') /\
  two_digits (pad2 m') = true /\
  two_digits (pad2 s') = true /\
  all_digits 10 (pad2 h') = true /\
  (2 <= String.length (pad2 h'))%nat /\
  canonical (incrementTime (Some (duration D H M S))) = (h' <? 100).
Proof.
  intros (HH & HM & HS & HD) Bh Bm Bs Bd.
  split; [reflexivity|]. split; [reflexivity|].
  destruct (field_nonneg H M S HH HM HS) as (Ph & Pm & Ps).
  pose proof (carry_range _ _ _ Ph Pm Ps) as R.
  assert (F : forall h' m' s' : Z, 0 <= h' -> 0 <= m' < 60 -> 0 <= s' < 60 ->
            two_digits (pad2 m') = true /\ two_digits (pad2 s') = true /\
            all_digits 10 (pad2 h') = true /\
            (2 <= String.length (pad2 h'))%nat /\
            two_digits (pad2 h') && two_digits (pad2 m') && two_digits (pad2 s')
              = (h' <? 100)).
  { intros h' m' s' P1 P2 P3.
    rewrite (pad2_two_digits m') by lia. rewrite (pad2_two_digits s') by lia.
    repeat split; [apply pad2_field, P1|apply pad2_length|].
    rewrite !Bool.andb_true_r.
    destruct (h' <? 100) eqn:E.
    - apply Z.ltb_lt in E. apply pad2_two_digits. lia.
    - apply Z.ltb_ge in E. apply two_digits_long, pad2_three_digits, E. }
  unfold incremented. destruct D as [d|]; cbn [duration].
  - rewrite incrementTime_dhms by assumption.
    destruct (carry (field_value H) (field_value M) (field_value S))
      as [[h1 m'] s'].
    destruct R as (R1 & R2 & R3).
    assert (G : let '(d', h') := day_carry d h1 in
                digit_field d' /\ 0 <= h').
    { unfold day_carry. destruct (24 <=? h1); split;
        try apply decimal_field; try assumption; lia. }
    destruct (day_carry d h1) as [d' h']. destruct G as [Gd Gh].
    destruct (F h' m' s' Gh R2 R3) as (F1 & F2 & F3 & F4 & F5).
    repeat split; try assumption. cbn [duration].
    rewrite canonical_dhms; try apply pad2_field; try assumption; lia.
  - rewrite incrementTime_hms by assumption.
    destruct (carry (field_value H) (field_value M) (field_value S))
      as [[h1 m'] s'].
    destruct R as (R1 & R2 & R3).
    assert (Gh : 0 <= h1) by lia.
    destruct (F h1 m' s' Gh R2 R3) as (F1 & F2 & F3 & F4 & F5).
    repeat split; try assumption. cbn [duration].
    rewrite canonical_hms; try apply pad2_field; try assumption; lia.
Qed.

Lemma digit_field_literal (s : string) :
  (negb (String.eqb s "") && all_digits 10 s) = true -> digit_field s.
Proof.
  intros E. apply Bool.andb_true_iff in E as [E1 E2]. split; [|exact E2].
  intros ->. discriminate E1.
Qed.

Lemma incrementTime_output_form_witness :
  incrementTime None = "0:00:01" /\
  incrementTime (Some "") = "0:00:01" /\
  let '(D', h', m', s') := incremented (Some "1") "23" "59" "59" in
  incrementTime (Some (duration (Some "1") "23" "59" "59")) =
    duration D' (pad2 h') (pad2 m') (pad2 s') /\
  two_digits (pad2 m') = true /\
  two_digits (pad2 s') = true /\
  all_digits 10 (pad2 h') = true /\
  (2 <= String.length (pad2 h'))%nat /\
  canonical (incrementTime (Some (duration (Some "1") "23" "59" "59"))) = (h' <? 100).
Proof.
  apply (incrementTime_output_form (Some "1") "23" "59" "59").
  - repeat split; apply digit_field_literal; reflexivity.
  - reflexivity.
  - reflexivity.
  - reflexivity.
  - reflexivity.
Defined.

(** C3, as stated, fails: the result for an absent input has a one-digit
    hours field, and hours from 100 on take three digits. *)
Lemma incrementTime_not_always_canonical :
  incrementTime None = "0:00:01" /\
  canonical (incrementTime None) = false /\
  incrementTime (Some "100:00:00") = "100:00:01" /\
  canonical (incrementTime (Some "100:00:00")) = false.
Proof. vm_compute. repeat split. Qed.

End Increment.

Section OneSecondMore.

Lemma add_one (n : Z) : 0 <= n -> n + 1 < safe -> add (int n) (Fin 1) = int (n + 1).
Proof. intros H0 Hs. change (Fin 1) with (int 1). apply add_int; lia. Qed.

(** C4, as the code has it.  For a duration [[D-]H:M:S] whose fields are
    decimal digits, with minutes and seconds below 60 and, when there is a
    day prefix, hours below 24 (total below 2^53 - 1 seconds), [toSeconds]
    of the incremented string is [toSeconds] of the string plus one;
    ["0:59:59"] gives ["01:00:00"] and ["1-23:59:59"] gives
    ["2-00:00:00"]. *)
Theorem incrementTime_adds_one_second (D : option string) (H M S : string) :
  well_formed D H M S ->
  field_value M < 60 -> field_value S < 60 ->
  (D <> None -> field_value H < 24) ->
  total_seconds D H M S + 1 < safe ->
  toSeconds (Some (duration D H M S)) = int (total_seconds D H M S) /\
  toSeconds (Some (incrementTime (Some (duration D H M S)))) =
    add (toSeconds (Some (duration D H M S))) (Fin 1) /\
  toSeconds (Some (incrementTime (Some (duration D H M S)))) =
    int (total_seconds D H M S + 1) /\
  incrementTime (Some "0:59:59") = "01:00:00" /\
  incrementTime (Some "1-23:59:59") = "2-00:00:00".
Proof.
  intros (HH & HM & HS & HD) Bm Bs Bh Bt.
  destruct (field_nonneg H M S HH HM HS) as (Ph & Pm & Ps).
  unfold total_seconds, seconds in *.
  assert (A : toSeconds (Some (duration D H M S)) = int (total_seconds D H M S) /\
              toSeconds (Some (incrementTime (Some (duration D H M S)))) =
                int (total_seconds D H M S + 1)).
  { unfold total_seconds.
    destruct D as [d|]; cbn [duration].
    - assert (Pd : 0 <= field_value d) by (apply field_value_nonneg, HD).
      assert (Bh' : field_value H < 24) by (apply Bh; discriminate).
      split; [apply toSeconds_dhms; auto; unfold seconds; lia|].
      rewrite incrementTime_dhms by (auto; lia).
      unfold carry, day_carry.
      destruct (60 <=? field_value S + 1) eqn:Es;
        [apply Z.leb_le in Es|apply Z.leb_gt in Es];
        match goal with |- context [if ?c then _ else _] => destruct c eqn:Em end;
        [apply Z.leb_le in Em|apply Z.leb_gt in Em|apply Z.leb_le in Em|apply Z.leb_gt in Em];
        match goal with |- context [if ?c then _ else _] => destruct c eqn:Eh end;
        [apply Z.leb_le in Eh|apply Z.leb_gt in Eh|apply Z.leb_le in Eh|apply Z.leb_gt in Eh
        |apply Z.leb_le in Eh|apply Z.leb_gt in Eh|apply Z.leb_le in Eh|apply Z.leb_gt in Eh];
        try lia;
        (rewrite toSeconds_dhms;
         [f_equal; rewrite ?pad2_value, ?decimal_value by lia; unfold seconds; lia
         | try apply decimal_field; try apply pad2_field; auto; lia ..
         | rewrite ?pad2_value, ?decimal_value by lia; unfold seconds; lia]).
    - split; [apply toSeconds_hms; auto; unfold seconds; lia|].
      rewrite incrementTime_hms by (auto; lia).
      unfold carry.
      destruct (60 <=? field_value S + 1) eqn:Es;
        [apply Z.leb_le in Es|apply Z.leb_gt in Es];
        match goal with |- context [if ?c then _ else _] => destruct c eqn:Em end;
        [apply Z.leb_le in Em|apply Z.leb_gt in Em|apply Z.leb_le in Em|apply Z.leb_gt in Em];
        try lia;
        (rewrite toSeconds_hms;
         [f_equal; rewrite ?pad2_value by lia; unfold seconds; lia
         | try apply pad2_field; lia ..
         | rewrite ?pad2_value by lia; unfold seconds; lia]). }
  destruct A as [A1 A2]. unfold total_seconds, seconds in A1, A2.
  repeat split; try assumption.
  - rewrite A1, A2. symmetry. apply add_one; [|lia].
    destruct D as [d|]; [pose proof (field_value_nonneg d (proj2 HD))|]; lia.
Qed.

Lemma incrementTime_adds_one_second_witness :
  toSeconds (Some (duration (Some "1") "23" "59" "59")) =
    int (total_seconds (Some "1") "23" "59" "59") /\
  toSeconds (Some (incrementTime (Some (duration (Some "1") "23" "59" "59")))) =
    add (toSeconds (Some (duration (Some "1") "23" "59" "59"))) (Fin 1) /\
  toSeconds (Some (incrementTime (Some (duration (Some "1") "23" "59" "59")))) =
    int (total_seconds (Some "1") "23" "59" "59" + 1) /\
  incrementTime (Some "0:59:59") = "01:00:00" /\
  incrementTime (Some "1-23:59:59") = "2-00:00:00".
Proof.
  apply (incrementTime_adds_one_second (Some "1") "23" "59" "59").
  - repeat split; apply digit_field_literal; reflexivity.
  - reflexivity.
  - reflexivity.
  - intros _. reflexivity.
  - reflexivity.
Defined.

(** C4, as stated, fails on a day-prefixed duration with 30 hours: minutes
    and seconds are below 60, yet the increment drops 21599 seconds. *)
Lemma incrementTime_resets_hours_over_24 :
  incrementTime (Some "1-30:00:00") = "2-00:00:01" /\
  toSeconds (Some "1-30:00:00") = int 194400 /\
  toSeconds (Some (incrementTime (Some "1-30:00:00"))) = int 172801 /\
  toSeconds (Some (incrementTime (Some "1-30:00:00"))) <>
    add (toSeconds (Some "1-30:00:00")) (Fin 1).
Proof. vm_compute. repeat split. discriminate. Qed.

End OneSecondMore.

Section NoDayPrefix.

Lemma carry_clock (n : Z) :
  0 <= n ->
  carry (n / 3600) ((n / 60) mod 60) (n mod 60) =
    ((n + 1) / 3600, ((n + 1) / 60) mod 60, (n + 1) mod 60).
Proof.
  intros Hn. unfold carry.
  destruct (60 <=? n mod 60 + 1) eqn:Es;
    [apply Z.leb_le in Es|apply Z.leb_gt in Es].
  - destruct (60 <=? (n / 60) mod 60 + 1) eqn:Em;
      [apply Z.leb_le in Em|apply Z.leb_gt in Em];
      (apply f_equal2; [apply f_equal2|]); Z.div_mod_to_equations; lia.
  - destruct (60 <=? (n / 60) mod 60) eqn:Em;
      [apply Z.leb_le in Em|apply Z.leb_gt in Em];
      (apply f_equal2; [apply f_equal2|]); Z.div_mod_to_equations; lia.
Qed.

Lemma ticks_clock (n : nat) :
  Z.of_nat n < safe ->
  ticks n "00:00:00" =
    hms (pad2 (Z.of_nat n / 3600)) (pad2 ((Z.of_nat n / 60) mod 60))
        (pad2 (Z.of_nat n mod 60)).
Proof.
  induction n as [|k IH]; intros B; [reflexivity|].
  cbn [ticks]. rewrite IH by lia. clear IH.
  set (N := Z.of_nat k) in *.
  assert (HN : 0 <= N) by apply Nat2Z.is_nonneg.
  assert (E : Z.of_nat (S k) = N + 1) by (subst N; lia).
  rewrite E in *.
  assert (R1 : 0 <= N / 3600 <= N) by (Z.div_mod_to_equations; lia).
  assert (R2 : 0 <= (N / 60) mod 60 < 60) by (apply Z.mod_pos_bound; lia).
  assert (R3 : 0 <= N mod 60 < 60) by (apply Z.mod_pos_bound; lia).
  unfold safe in *.
  rewrite incrementTime_hms;
    try apply pad2_field; rewrite ?pad2_value by lia; unfold safe; try lia.
  rewrite carry_clock by lia. reflexivity.
Qed.




End NoDayPrefix.

(* ================================================================== *)
(** * 15. Malformed durations *)
(* ================================================================== *)

Section Malformed.

Lemma add_NaN_r (x : number) : add x NaN = NaN.
Proof. destruct x; reflexivity. Qed.

Lemma add_NaN_l (x : number) : add NaN x = NaN.
Proof. reflexivity. Qed.

Lemma mul_NaN_l (x : number) : mul NaN x = NaN.
Proof. reflexivity. Qed.

Lemma div_NaN_r (x : number) : div x NaN = NaN.
Proof. destruct x; reflexivity. Qed.

Lemma item_short (l : list string) (i : nat) :
  (List.length l <= i)%nat ->
  ToNumber (item Num (map StringToNumber l) i) = NaN.
Proof.
  intros L. unfold item.
  replace (nth_error (map StringToNumber l) i) with (@None number);
    [reflexivity|].
  symmetry. apply nth_error_None. rewrite length_map. exact L.
Qed.

Lemma item_not_numeric (l : list string) (i : nat) :
  StringToNumber (nth i l "") = NaN ->
  ToNumber (item Num (map StringToNumber l) i) = NaN.
Proof.
  intros E. unfold item. rewrite nth_error_map.
  destruct (nth_error l i) as [f|] eqn:N; [|reflexivity].
  cbn [option_map ToNumber]. rewrite <- E.
  f_equal. symmetry. apply nth_error_nth. exact N.
Qed.

Lemma toSeconds_fields (t : string) :
  t <> "" ->
  exists days,
    toSeconds (Some t) =
      let nums := map StringToNumber (time_fields t) in
      add (add (add (mul days (Fin 86400))
                    (mul (ToNumber (item Num nums 0)) (Fin 3600)))
               (mul (ToNumber (item Num nums 1)) (Fin 60)))
          (ToNumber (item Num nums 2)).
Proof.
  intros Hne. unfold toSeconds, time_fields, time_part.
  assert (T : negb (ToBoolean (Str t)) = false)
    by (destruct t; [contradiction|reflexivity]).
  rewrite T. destruct (includes t "-"); eexists; reflexivity.
Qed.

Lemma percentage_of_NaN (e r : option string) :
  toSeconds e = NaN \/ toSeconds r = NaN ->
  strict_eq (toSeconds r) (Fin 0) = false ->
  getElapsedPercentage e r = NaN.
Proof.
  intros H Z0. unfold getElapsedPercentage. rewrite Z0.
  assert (E : div (toSeconds e) (toSeconds r) = NaN).
  { destruct H as [-> | ->]; [reflexivity|apply div_NaN_r]. }
  rewrite E. reflexivity.
Qed.

(** C2, as the code has it.  [toSeconds] validates nothing and raises
    nothing: when fewer than three colon-separated fields remain after the
    optional day prefix, or one of the first three is not numeric, it
    returns [NaN], not 0, and the percentage computed from it is [NaN]
    (0 when the requested duration parses to 0).  The empty or absent
    input parses to 0, and an empty field counts as 0 and not as
    non-numeric: ["::"] parses to 0. *)
Theorem toSeconds_malformed_is_NaN (t : string) :
  t <> "" ->
  (List.length (time_fields t) < 3)%nat \/
  (exists i, (i < 3)%nat /\ StringToNumber (nth i (time_fields t) "") = NaN) ->
  toSeconds (Some t) = NaN /\
  (forall requested,
     getElapsedPercentage (Some t) requested =
       if strict_eq (toSeconds requested) (Fin 0) then Fin 0 else NaN) /\
  (forall elapsed, getElapsedPercentage elapsed (Some t) = NaN) /\
  toSeconds None = Fin 0 /\
  toSeconds (Some "") = Fin 0 /\
  toSeconds (Some "::") = Fin 0.
Proof.
  intros Hne Hbad.
  assert (E : toSeconds (Some t) = NaN).
  { destruct (toSeconds_fields t Hne) as [days ->]. cbv zeta.
    destruct Hbad as [L | (i & Li & N)].
    - rewrite (item_short _ 2) by lia. apply add_NaN_r.
    - pose proof (item_not_numeric _ i N) as I.
      destruct i as [|[|[|i]]]; [| | |lia]; rewrite I.
      + rewrite mul_NaN_l, add_NaN_r. reflexivity.
      + rewrite mul_NaN_l, add_NaN_r. reflexivity.
      + apply add_NaN_r. }
  repeat split; try exact E.
  - intros requested.
    destruct (strict_eq (toSeconds requested) (Fin 0)) eqn:Z0.
    + unfold getElapsedPercentage. rewrite Z0. reflexivity.
    + apply percentage_of_NaN; auto.
  - intros elapsed. apply percentage_of_NaN; [auto|]. rewrite E. reflexivity.
Qed.

Lemma toSeconds_malformed_is_NaN_witness :
  toSeconds (Some "5:30") = NaN /\
  (forall requested,
     getElapsedPercentage (Some "5:30") requested =
       if strict_eq (toSeconds requested) (Fin 0) then Fin 0 else NaN) /\
  (forall elapsed, getElapsedPercentage elapsed (Some "5:30") = NaN) /\
  toSeconds None = Fin 0 /\
  toSeconds (Some "") = Fin 0 /\
  toSeconds (Some "::") = Fin 0.
Proof.
  apply (toSeconds_malformed_is_NaN "5:30").
  - discriminate.
  - left. vm_compute. reflexivity.
Defined.

(** C2, as stated, fails: a duration with two fields, as SLURM prints
    elapsed times below one hour, and one with a non-numeric field parse to
    [NaN], and the percentage shown is [NaN], not 0. *)
Lemma toSeconds_two_fields_is_not_zero :
  toSeconds (Some "5:30") = NaN /\
  toSeconds (Some "1:xx:00") = NaN /\
  toSeconds (Some "5:30") <> Fin 0 /\
  getElapsedPercentage (Some "5:30") (Some "1:00:00") = NaN /\
  getElapsedPercentage (Some "5:30") (Some "1:00:00") <> Fin 0.
Proof. vm_compute. repeat split; discriminate. Qed.

End Malformed.

(* ================================================================== *)
(** * 16. Severity tiers *)
(* ================================================================== *)

Section Tiers.

Lemma Qle_bool_75_50 (q : Q) :
  Qle_bool 75 q = true -> Qle_bool 50 q = true.
Proof.
  unfold Qle_bool; simpl. intros E. apply Z.leb_le in E. apply Z.leb_le.
  pose proof (Pos2Z.is_pos (Qden q)). lia.
Qed.

(** C6, as the code has it.  For every percentage other than [NaN] the
    text class and the fill class stand for the same tier, the one of the
    threshold table: Low below 50, Medium from 50 and below 75, High from
    75 on; at 50 both are Medium and at 75 both are High. *)
Theorem color_tiers_agree (v : number) :
  v <> NaN ->
  tier_of_text (getColor v) = threshold_tier v /\
  tier_of_fill (progressBarFill v) = threshold_tier v /\
  threshold_tier v <> None /\
  tier_of_text (getColor (Fin 50)) = Some Medium /\
  tier_of_fill (progressBarFill (Fin 50)) = Some Medium /\
  tier_of_text (getColor (Fin 75)) = Some High /\
  tier_of_fill (progressBarFill (Fin 75)) = Some High.
Proof.
  intros Hv.
  assert (A : tier_of_text (getColor v) = threshold_tier v /\
              tier_of_fill (progressBarFill v) = threshold_tier v /\
              threshold_tier v <> None).
  { destruct v as [|b|q]; [contradiction| |].
    - destruct b; repeat split; discriminate.
    - unfold getColor, progressBarFill, threshold_tier, ge, lt.
      destruct (Qle_bool 50 q) eqn:E50; destruct (Qle_bool 75 q) eqn:E75;
        cbn [negb andb]; try (repeat split; discriminate).
      apply Qle_bool_75_50 in E75. congruence. }
  destruct A as (A1 & A2 & A3). repeat split; assumption.
Qed.

Lemma color_tiers_agree_witness :
  tier_of_text (getColor (Fin (7499 # 100))) = threshold_tier (Fin (7499 # 100)) /\
  tier_of_fill (progressBarFill (Fin (7499 # 100))) = threshold_tier (Fin (7499 # 100)) /\
  threshold_tier (Fin (7499 # 100)) <> None /\
  tier_of_text (getColor (Fin 50)) = Some Medium /\
  tier_of_fill (progressBarFill (Fin 50)) = Some Medium /\
  tier_of_text (getColor (Fin 75)) = Some High /\
  tier_of_fill (progressBarFill (Fin 75)) = Some High.
Proof.
  apply (color_tiers_agree (Fin (7499 # 100))). discriminate.
Defined.

(** C6, as stated, fails on [NaN], the percentage of a job whose elapsed
    time has two fields: the text is red (High) and the fill is green
    (Low). *)
Lemma color_tiers_differ_on_NaN :
  let j := mkJob "7" "sim" None "R" 4 1 (Some "5:30") (Some "1:00:00") in
  getElapsedPercentage (time_elapsed j) (time_requested j) = NaN /\
  text_class (render_row initial j) = "text-red-600" /\
  fill_class (render_row initial j) = "bg-green-500" /\
  tier_of_text (getColor NaN) = Some High /\
  tier_of_fill (progressBarFill NaN) = Some Low /\
  tier_of_text (getColor NaN) <> tier_of_fill (progressBarFill NaN).
Proof. vm_compute. repeat split; discriminate. Qed.

End Tiers.

(* ================================================================== *)
(** * 17. [toFixed(2)] read back as a number *)
(* ================================================================== *)

Section Hundredths.

Lemma substring_prefix_suffix (s : string) :
  forall i : nat, (i <= String.length s)%nat ->
    substring 0 i s ++ substring i (String.length s - i) s = s /\
    String.length (substring 0 i s) = i.
Proof.
  induction s as [|c s IH]; intros i Hi.
  - simpl in Hi. replace i with 0%nat by lia. split; reflexivity.
  - destruct i as [|i].
    + split; [|reflexivity]. clear IH Hi.
      cbn [substring append String.length Nat.sub].
      f_equal. induction s as [|d s IHs]; [reflexivity|].
      cbn [substring String.length]. f_equal. exact IHs.
    + simpl in Hi. destruct (IH i) as [E L]; [lia|].
      cbn [substring append String.length Nat.sub].
      split; [f_equal; exact E|f_equal; exact L].
Qed.

Lemma repeat_zero_digits (k : nat) : all_digits 10 (repeat_char "0" k) = true.
Proof. induction k; simpl; auto. Qed.

Lemma repeat_char_length (c : ascii) (k : nat) :
  String.length (repeat_char c k) = k.
Proof. induction k; simpl; congruence. Qed.

Lemma digits_value_zeros (k : nat) (s : string) :
  digits_value 10 (repeat_char "0" k ++ s) 0 = digits_value 10 s 0.
Proof. induction k; simpl; auto. Qed.

Lemma span_digits_stop (a b : string) (c : ascii) :
  all_digits 10 a = true -> is_digit 10 c = false ->
  span_digits 10 (a ++ String c b) = (a, String c b).
Proof.
  intros Ha Hc. induction a as [|x a IH]; cbn [append span_digits].
  - rewrite Hc. reflexivity.
  - simpl in Ha. apply Bool.andb_true_iff in Ha as [Hx Ha].
    rewrite Hx, (IH Ha). reflexivity.
Qed.

Lemma trim_end_fixed (a b : string) :
  all_digits 10 a = true -> all_digits 10 b = true -> b <> "" ->
  trim_end (a ++ String "." b) = a ++ String "." b.
Proof.
  intros Ha Hb Hne.
  assert (Eb : trim_end b = b) by (apply trim_end_digits, Hb).
  assert (Ed : trim_end (String "." b) = String "." b).
  { cbn [trim_end]. rewrite Eb. destruct b; [contradiction|reflexivity]. }
  induction a as [|x a IH]; [exact Ed|].
  simpl in Ha. apply Bool.andb_true_iff in Ha as [Hx Ha].
  cbn [append trim_end]. rewrite (IH Ha).
  destruct (a ++ String "." b) eqn:E; [destruct a; discriminate|reflexivity].
Qed.

(** Reading a number printed in fixed notation with two decimals. *)
Lemma StringToNumber_fixed (a b : string) :
  digit_field a -> all_digits 10 b = true -> String.length b = 2%nat ->
  StringToNumber (a ++ "." ++ b) = rnd (Qmake (digits_value 10 (a ++ b) 0) 100).
Proof.
  intros [Ane Ha] Hb Lb.
  assert (Bne : b <> "") by (intros ->; discriminate).
  change ("." ++ b) with (String "." b).
  unfold StringToNumber, trim.
  destruct a as [|x a]; [contradiction|].
  assert (Hx : is_digit 10 x = true /\ all_digits 10 a = true)
    by (simpl in Ha; apply Bool.andb_true_iff in Ha; exact Ha).
  destruct Hx as [Hx Ha'].
  assert (T : trim_start (String x a ++ String "." b) = String x a ++ String "." b).
  { cbn [append trim_start]. rewrite (digit_not_ws x Hx). reflexivity. }
  rewrite T, (trim_end_fixed _ _ Ha Hb Bne).
  assert (R : radix_prefix (String x a ++ String "." b) = None).
  { cbn [append]. destruct a as [|y a]; cbn [append].
    - digit_cases Hx; reflexivity.
    - simpl in Ha'. apply Bool.andb_true_iff in Ha' as [Hy _].
      destruct (digit_not_letter y Hy) as (E1 & E2 & E3 & _).
      digit_cases Hx; try reflexivity. cbn [radix_prefix].
      rewrite E1, E2, E3. reflexivity. }
  assert (St : strip_sign (String x a ++ String "." b)
               = (false, String x a ++ String "." b)).
  { cbn [append]. digit_cases Hx; reflexivity. }
  assert (I : String.eqb (String x a ++ String "." b) "Infinity" = false).
  { cbn [append]. digit_cases Hx; reflexivity. }
  assert (Sp : span_digits 10 (String x a ++ String "." b)
               = (String x a, String "." b)).
  { apply span_digits_stop; [exact Ha|reflexivity]. }
  remember (String x a ++ String "." b) as u eqn:Eu.
  assert (Une : u <> "") by (subst u; discriminate).
  destruct u as [|u0 u']; [contradiction|].
  rewrite R. unfold StrDecimalLiteral. rewrite St, I, Sp.
  rewrite (span_digits_all b Hb).
  cbn [append exponent_part]. rewrite Lb.
  reflexivity.
Qed.

Lemma Qfloor_nonneg_scaled (q : Q) :
  (0 <= q)%Q -> 0 <= Qfloor (q * 100 + (1 # 2))%Q.
Proof.
  intros Hq. change 0 with (Qfloor 0). apply Qfloor_resp_le.
  assert (A : (0 <= q * 100)%Q) by (apply Qmult_le_0_compat; [exact Hq|discriminate]).
  assert (B : (0 <= 1 # 2)%Q) by discriminate.
  pose proof (Qplus_le_compat _ _ _ _ A B) as C. exact C.
Qed.

Lemma Qabs_nonneg_eq (q : Q) : (0 <= q)%Q -> Qabs q = q.
Proof.
  destruct q as [n d]. unfold Qle; simpl. intros H.
  rewrite Z.mul_1_r in H. rewrite Z.abs_eq by exact H. reflexivity.
Qed.

(** The number [x.toFixed(2)] denotes, for [0 <= x < 10^21], is the double
    nearest to the nearest hundredth of [x]. *)
Lemma toFixed_round2 (q : Q) :
  (0 <= q)%Q -> Qle_bool (inject_Z (10 ^ 21)) q = false ->
  ToNumber (Str (toFixed (Fin q) 2)) = round2 (Fin q).
Proof.
  intros Hq Hbig. cbn [ToNumber]. unfold toFixed, round2.
  rewrite (Qabs_nonneg_eq q Hq), Hbig.
  assert (Sg : Qneg q = false).
  { destruct q as [n d]. unfold Qneg, Qle in *; simpl in *.
    apply Z.ltb_ge. lia. }
  rewrite Sg. cbn [append].
  change (inject_Z (10 ^ Z.of_nat 2)) with (100 : Q).
  set (n := Qfloor (q * 100 + (1 # 2))%Q).
  assert (Hn : 0 <= n) by (apply Qfloor_nonneg_scaled, Hq).
  assert (Em : (if n =? 0 then "0" else decimal n) = decimal n).
  { destruct (n =? 0) eqn:E; [|reflexivity].
    apply Z.eqb_eq in E. rewrite E. reflexivity. }
  rewrite Em.
  set (m1 := repeat_char "0" (3 - String.length (decimal n)) ++ decimal n).
  assert (D1 : all_digits 10 m1 = true).
  { unfold m1. rewrite all_digits_append, repeat_zero_digits, decimal_digits.
    reflexivity. }
  assert (V1 : digits_value 10 m1 0 = n).
  { unfold m1. rewrite digits_value_zeros. apply decimal_value, Hn. }
  assert (L1 : (3 <= String.length m1)%nat).
  { unfold m1. rewrite length_append, repeat_char_length. lia. }
  destruct (substring_prefix_suffix m1 (String.length m1 - 2)) as [E L]; [lia|].
  replace (String.length m1 - (String.length m1 - 2))%nat with 2%nat in E by lia.
  set (a := substring 0 (String.length m1 - 2) m1) in *.
  set (b := substring (String.length m1 - 2) 2 m1) in *.
  assert (Lb : String.length b = 2%nat).
  { pose proof (f_equal String.length E) as F. rewrite length_append in F. lia. }
  rewrite <- E in D1. rewrite all_digits_append in D1.
  apply Bool.andb_true_iff in D1 as [Da Db].
  assert (Fa : digit_field a).
  { split; [|exact Da]. intros Z0. rewrite Z0 in L. simpl in L. lia. }
  change (String "." b) with ("." ++ b).
  rewrite (StringToNumber_fixed a b Fa Db Lb), E, V1. reflexivity.
Qed.

End Hundredths.

(* ================================================================== *)
(** * 18. The utilisation percentage *)
(* ================================================================== *)

Section RoundingBounds.

Lemma div_half_even_bounds (N D : Z) :
  0 <= N -> 0 < D -> 0 <= div_half_even N D <= N / D + 1.
Proof.
  intros HN HD. unfold div_half_even.
  assert (0 <= N / D) by (apply Z.div_pos; lia).
  destruct (2 * (N mod D) ?= D); [destruct (Z.even (N / D))| |]; lia.
Qed.

Lemma ilog2_lower (n d : Z) :
  0 < n -> 0 < d -> 0 <= ilog2 n d -> d * 2 ^ ilog2 n d <= n.
Proof.
  intros Hn Hd. unfold ilog2.
  pose proof (Z.log2_spec n Hn) as [Ln _].
  pose proof (Z.log2_spec d Hd) as [_ Ld].
  pose proof (Z.log2_nonneg n). pose proof (Z.log2_nonneg d).
  set (c := Z.log2 n - Z.log2 d).
  destruct (0 <=? c) eqn:Ec.
  - apply Z.leb_le in Ec. destruct (d * 2 ^ c <=? n) eqn:E.
    + intros _. apply Z.leb_le in E. exact E.
    + intros Hc.
      assert (P : 2 ^ Z.succ (Z.log2 d) * 2 ^ (c - 1) = 2 ^ Z.log2 n).
      { rewrite <- Z.pow_add_r by lia. f_equal. unfold c. lia. }
      assert (0 < 2 ^ (c - 1)) by (apply Z.pow_pos_nonneg; lia).
      nia.
  - apply Z.leb_gt in Ec. destruct (d <=? n * 2 ^ (- c)); lia.
Qed.

Lemma rnd_bound (q : Q) (B : Z) :
  0 <= Qnum q -> Qnum q <= B * QDen q -> B < 2 ^ 1000 ->
  exists q', rnd q = Fin q' /\ 0 <= Qnum q' /\ Qnum q' <= (2 * B + 1) * QDen q'.
Proof.
  intros H0 HB Hbig.
  pose proof (Pos2Z.is_pos (Qden q)) as Pq.
  assert (B0 : 0 <= B) by (apply (Z.mul_nonneg_cancel_r B (QDen q) Pq); lia).
  unfold rnd. pose proof (Qred_correct q) as C. unfold Qeq in C.
  destruct (Qred q) as [n d]. cbn [Qnum Qden] in *.
  pose proof (Pos2Z.is_pos d) as Pd.
  assert (Hn : 0 <= n).
  { apply (Z.mul_nonneg_cancel_r n (QDen q) Pq). rewrite C.
    apply Z.mul_nonneg_nonneg; lia. }
  assert (HnB : n <= B * Z.pos d).
  { apply (Z.mul_le_mono_pos_r _ _ (QDen q) Pq). rewrite C.
    replace (B * Z.pos d * QDen q) with (B * QDen q * Z.pos d) by ring.
    apply Z.mul_le_mono_nonneg_r; lia. }
  cbv zeta. rewrite Z.abs_eq by lia.
  destruct (n =? 0) eqn:E0.
  { exists 0%Q. cbn [Qnum Qden]. repeat split; lia. }
  apply Z.eqb_neq in E0. assert (Hpos : 0 < n) by lia.
  rewrite Z.sgn_pos by lia. rewrite !Z.mul_1_l.
  set (L := ilog2 n (Z.pos d)).
  destruct (0 <=? Z.max (L - 52) (-1074)) eqn:Esh.
  - apply Z.leb_le in Esh.
    assert (Sh : Z.max (L - 52) (-1074) = L - 52) by lia.
    rewrite Sh in *. set (sh := L - 52) in *.
    assert (HL : 0 <= L) by lia.
    pose proof (ilog2_lower n (Z.pos d) Hpos Pd HL) as Lo. fold L in Lo.
    assert (P2 : 0 < 2 ^ sh) by (apply Z.pow_pos_nonneg; lia).
    assert (Psh : 2 ^ sh <= 2 ^ L) by (apply Z.pow_le_mono_r; lia).
    assert (PD : 0 < Z.pos d * 2 ^ sh) by lia.
    pose proof (div_half_even_bounds n (Z.pos d * 2 ^ sh) Hn PD) as [M0 M1].
    set (m := div_half_even n (Z.pos d * 2 ^ sh)) in *.
    pose proof (Z.mul_div_le n (Z.pos d * 2 ^ sh) PD) as Fl.
    set (f := n / (Z.pos d * 2 ^ sh)) in *.
    assert (V1 : f * 2 ^ sh <= B).
    { apply (Z.mul_le_mono_pos_r _ _ (Z.pos d) Pd).
      replace (f * 2 ^ sh * Z.pos d) with (Z.pos d * 2 ^ sh * f) by ring. lia. }
    assert (V2 : 2 ^ sh <= B).
    { apply (Z.mul_le_mono_pos_r _ _ (Z.pos d) Pd).
      assert (Z.pos d * 2 ^ sh <= Z.pos d * 2 ^ L)
        by (apply Z.mul_le_mono_nonneg_l; lia).
      lia. }
    assert (V : m * 2 ^ sh <= 2 * B).
    { assert (m * 2 ^ sh <= (f + 1) * 2 ^ sh)
        by (apply Z.mul_le_mono_nonneg_r; lia).
      lia. }
    assert (Big : 2 * 2 ^ 1000 < 2 ^ 1024).
    { change (2 * 2 ^ 1000) with (2 ^ 1001). apply Z.pow_lt_mono_r; lia. }
    destruct (2 ^ 1024 <=? m * 2 ^ sh) eqn:Eo; [apply Z.leb_le in Eo; lia|].
    eexists. split; [reflexivity|]. cbn [inject_Z Qnum Qden].
    assert (0 <= m * 2 ^ sh) by (apply Z.mul_nonneg_nonneg; lia). lia.
  - apply Z.leb_gt in Esh.
    set (k := - Z.max (L - 52) (-1074)) in *.
    assert (Hk : 0 < k) by lia.
    assert (P2 : 0 < 2 ^ k) by (apply Z.pow_pos_nonneg; lia).
    assert (PN : 0 <= n * 2 ^ k) by (apply Z.mul_nonneg_nonneg; lia).
    pose proof (div_half_even_bounds (n * 2 ^ k) (Z.pos d) PN Pd) as [M0 M1].
    set (m := div_half_even (n * 2 ^ k) (Z.pos d)) in *.
    pose proof (Z.mul_div_le (n * 2 ^ k) (Z.pos d) Pd) as Fl.
    set (f := n * 2 ^ k / Z.pos d) in *.
    assert (V : m <= (B + 1) * 2 ^ k).
    { assert (f <= B * 2 ^ k).
      { apply (Z.mul_le_mono_pos_l _ _ (Z.pos d) Pd).
        assert (n * 2 ^ k <= B * Z.pos d * 2 ^ k)
          by (apply Z.mul_le_mono_nonneg_r; lia).
        lia. }
      lia. }
    eexists. split; [reflexivity|].
    pose proof (Qred_correct (m # Z.to_pos (2 ^ k))) as R. unfold Qeq in R.
    destruct (Qred (m # Z.to_pos (2 ^ k))) as [a b]. cbn [Qnum Qden] in *.
    rewrite Z2Pos.id in R by exact P2.
    pose proof (Pos2Z.is_pos b) as Pb. split.
    + apply (Z.mul_nonneg_cancel_r a (2 ^ k) P2). rewrite R.
      apply Z.mul_nonneg_nonneg; lia.
    + apply (Z.mul_le_mono_pos_r _ _ (2 ^ k) P2). rewrite R.
      assert (m * Z.pos b <= (B + 1) * 2 ^ k * Z.pos b)
        by (apply Z.mul_le_mono_nonneg_r; lia).
      assert (0 <= B * Z.pos b * 2 ^ k)
        by (repeat apply Z.mul_nonneg_nonneg; lia).
      lia.
Qed.

Lemma percentage_ratio_range (E R : Z) :
  0 <= E < safe -> 0 < R < safe ->
  exists q, mul (div (int E) (int R)) (Fin 100) = Fin q /\
            (0 <= q)%Q /\ Qle_bool (inject_Z (10 ^ 21)) q = false.
Proof.
  intros [E0 E1] [R0 R1]. unfold safe in *.
  destruct R as [|p|p]; try lia.
  assert (D : div (int E) (int (Z.pos p)) = rnd (Qmake (E * 1) (1 * p))).
  { reflexivity. }
  rewrite D.
  destruct (rnd_bound (Qmake (E * 1) (1 * p)) (2 ^ 53)) as (q1 & -> & A0 & A1).
  - cbn [Qnum]. lia.
  - cbn [Qnum Qden]. pose proof (Pos2Z.is_pos (1 * p)).
    assert (2 ^ 53 * 1 <= 2 ^ 53 * Z.pos (1 * p))
      by (apply Z.mul_le_mono_nonneg_l; lia).
    lia.
  - apply Z.pow_lt_mono_r; lia.
  - cbn [mul].
    destruct (rnd_bound (q1 * 100)%Q ((2 * 2 ^ 53 + 1) * 100)) as (q2 & -> & C0 & C1).
    + cbn [Qmult Qnum]. lia.
    + cbn [Qmult Qnum Qden]. rewrite Pos.mul_1_r.
      apply (Z.mul_le_mono_nonneg_r _ _ 100) in A1; lia.
    + vm_compute. reflexivity.
    + exists q2. split; [reflexivity|]. pose proof (Pos2Z.is_pos (Qden q2)) as P.
      split.
      * unfold Qle. cbn [Qnum Qden]. lia.
      * unfold Qle_bool. cbn [inject_Z Qnum Qden]. apply Z.leb_gt.
        change ((2 * ((2 * 2 ^ 53 + 1) * 100) + 1)) with 3602879701896397001 in C1.
        change (10 ^ 21) with 1000000000000000000000.
        nia.
Qed.

End RoundingBounds.

Section Percentage.




End Percentage.

(* ================================================================== *)
(** * 19. Bounds that rounding keeps *)
(* ================================================================== *)

Section RoundingOrder.

Lemma div_half_even_le (N D A : Z) :
  0 < D -> N <= A * D -> div_half_even N D <= A.
Proof.
  intros HD H. unfold div_half_even.
  pose proof (Z.div_mod N D ltac:(lia)) as E.
  pose proof (Z.mod_pos_bound N D HD) as R.
  assert (F : N / D <= A).
  { apply Z.div_le_upper_bound; [exact HD|]. lia. }
  destruct (Z.eq_dec (N / D) A) as [Ef|Nf].
  - assert (R0 : N mod D = 0).
    { rewrite Ef in E. nia. }
    rewrite R0. change (2 * 0) with 0.
    destruct (Z.compare_spec 0 D); lia.
  - destruct (2 * (N mod D) ?= D); [destruct (Z.even (N / D))| |]; lia.
Qed.

Lemma div_half_even_ge (N D C : Z) :
  0 < D -> C * D <= N -> C <= div_half_even N D.
Proof.
  intros HD H. unfold div_half_even.
  assert (F : C <= N / D) by (apply Z.div_le_lower_bound; lia).
  destruct (2 * (N mod D) ?= D); [destruct (Z.even (N / D))| |]; lia.
Qed.

Lemma ilog2_lower_neg (n d : Z) :
  0 < n -> 0 < d -> ilog2 n d < 0 -> d <= n * 2 ^ (- ilog2 n d).
Proof.
  intros Hn Hd. unfold ilog2.
  pose proof (Z.log2_spec n Hn) as [Ln _].
  pose proof (Z.log2_spec d Hd) as [_ Ld].
  pose proof (Z.log2_nonneg n). pose proof (Z.log2_nonneg d).
  set (c := Z.log2 n - Z.log2 d).
  assert (G : forall e, 0 <= e -> Z.log2 n + e = Z.succ (Z.log2 d) -> d <= n * 2 ^ e).
  { intros e He Ee.
    assert (P : 2 ^ Z.log2 n * 2 ^ e = 2 ^ Z.succ (Z.log2 d)).
    { rewrite <- Z.pow_add_r by lia. f_equal. exact Ee. }
    assert (0 < 2 ^ e) by (apply Z.pow_pos_nonneg; lia).
    assert (2 ^ Z.log2 n * 2 ^ e <= n * 2 ^ e)
      by (apply Z.mul_le_mono_nonneg_r; lia).
    lia. }
  destruct (0 <=? c) eqn:Ec.
  - apply Z.leb_le in Ec. destruct (d * 2 ^ c <=? n) eqn:E; [lia|].
    intros Hc. apply G; unfold c in *; lia.
  - apply Z.leb_gt in Ec. destruct (d <=? n * 2 ^ (- c)) eqn:E.
    + intros _. apply Z.leb_le in E. exact E.
    + intros _. apply G; unfold c in *; lia.
Qed.

(** A double that is at least [q] stays at least the rounding of [q]:
    here for a bound [a / 2^j] with [a] below 2^53. *)
Lemma rnd_le (q : Q) (a j : Z) :
  0 < a < 2 ^ 53 -> 0 <= j <= 1074 ->
  0 <= Qnum q -> Qnum q * 2 ^ j <= a * QDen q ->
  exists q', rnd q = Fin q' /\ 0 <= Qnum q' /\ Qnum q' * 2 ^ j <= a * QDen q'.
Proof.
  intros [A0 A1] [J0 J1] H0 HB.
  pose proof (Pos2Z.is_pos (Qden q)) as Pq.
  assert (PJ : 0 < 2 ^ j) by (apply Z.pow_pos_nonneg; lia).
  unfold rnd. pose proof (Qred_correct q) as C. unfold Qeq in C.
  destruct (Qred q) as [n d]. cbn [Qnum Qden] in *.
  pose proof (Pos2Z.is_pos d) as Pd.
  assert (Hn : 0 <= n).
  { apply (Z.mul_nonneg_cancel_r n (QDen q) Pq). rewrite C.
    apply Z.mul_nonneg_nonneg; lia. }
  assert (HnB : n * 2 ^ j <= a * Z.pos d).
  { apply (Z.mul_le_mono_pos_r _ _ (QDen q) Pq).
    replace (n * 2 ^ j * QDen q) with (n * QDen q * 2 ^ j) by ring.
    rewrite C.
    replace (Qnum q * Z.pos d * 2 ^ j) with (Qnum q * 2 ^ j * Z.pos d) by ring.
    replace (a * Z.pos d * QDen q) with (a * QDen q * Z.pos d) by ring.
    apply Z.mul_le_mono_nonneg_r; lia. }
  cbv zeta. rewrite Z.abs_eq by lia.
  destruct (n =? 0) eqn:E0.
  { exists 0%Q. cbn [Qnum Qden]. repeat split; lia. }
  apply Z.eqb_neq in E0. assert (Hpos : 0 < n) by lia.
  rewrite Z.sgn_pos by lia. rewrite !Z.mul_1_l.
  set (L := ilog2 n (Z.pos d)).
  assert (LJ : L + j <= 52).
  { destruct (Z_lt_le_dec 52 (L + j)) as [Hbig|]; [exfalso|lia].
    destruct (Z_lt_le_dec L 0) as [Ln|Lp].
    - pose proof (ilog2_lower_neg n (Z.pos d) Hpos Pd Ln) as Lo. fold L in Lo.
      assert (P : 2 ^ 53 * 2 ^ (- L) <= 2 ^ j).
      { rewrite <- Z.pow_add_r by lia. apply Z.pow_le_mono_r; lia. }
      assert (PL : 0 < 2 ^ (- L)) by (apply Z.pow_pos_nonneg; lia).
      assert (Z.pos d * 2 ^ j <= n * 2 ^ (- L) * 2 ^ j)
        by (apply Z.mul_le_mono_nonneg_r; lia).
      assert (n * 2 ^ j * 2 ^ (- L) <= a * Z.pos d * 2 ^ (- L))
        by (apply Z.mul_le_mono_nonneg_r; lia).
      assert (Z.pos d * (2 ^ 53 * 2 ^ (- L)) <= Z.pos d * 2 ^ j)
        by (apply Z.mul_le_mono_nonneg_l; lia).
      assert (a * (Z.pos d * 2 ^ (- L)) < 2 ^ 53 * (Z.pos d * 2 ^ (- L)))
        by (apply Z.mul_lt_mono_pos_r; lia).
      lia.
    - pose proof (ilog2_lower n (Z.pos d) Hpos Pd Lp) as Lo. fold L in Lo.
      assert (P : 2 ^ 53 <= 2 ^ L * 2 ^ j).
      { rewrite <- Z.pow_add_r by lia. apply Z.pow_le_mono_r; lia. }
      assert (Z.pos d * 2 ^ L * 2 ^ j <= n * 2 ^ j)
        by (apply Z.mul_le_mono_nonneg_r; lia).
      assert (Z.pos d * 2 ^ 53 <= Z.pos d * (2 ^ L * 2 ^ j))
        by (apply Z.mul_le_mono_nonneg_l; lia).
      assert (a * Z.pos d < 2 ^ 53 * Z.pos d)
        by (apply Z.mul_lt_mono_pos_r; lia).
      lia. }
  destruct (0 <=? Z.max (L - 52) (-1074)) eqn:Esh.
  - apply Z.leb_le in Esh.
    assert (Sh : Z.max (L - 52) (-1074) = 0) by lia.
    assert (Ej : j = 0) by lia.
    rewrite Sh. subst j. change (2 ^ 0) with 1 in *.
    rewrite !Z.mul_1_r in *.
    pose proof (div_half_even_le n (Z.pos d) a Pd HnB) as M1.
    pose proof (div_half_even_ge n (Z.pos d) 0 Pd ltac:(lia)) as M0.
    set (m := div_half_even n (Z.pos d)) in *.
    assert (Big : 2 ^ 53 < 2 ^ 1024) by (apply Z.pow_lt_mono_r; lia).
    destruct (2 ^ 1024 <=? m) eqn:Eo; [apply Z.leb_le in Eo; lia|].
    eexists. split; [reflexivity|]. cbn [inject_Z Qnum Qden]. lia.
  - apply Z.leb_gt in Esh.
    set (k := - Z.max (L - 52) (-1074)) in *.
    assert (Hk : j <= k) by lia.
    assert (P2 : 0 < 2 ^ k) by (apply Z.pow_pos_nonneg; lia).
    assert (Pkj : 0 < 2 ^ (k - j)) by (apply Z.pow_pos_nonneg; lia).
    assert (Ek : 2 ^ k = 2 ^ j * 2 ^ (k - j)).
    { rewrite <- Z.pow_add_r by lia. f_equal. lia. }
    assert (HN : n * 2 ^ k <= a * 2 ^ (k - j) * Z.pos d).
    { rewrite Ek.
      replace (n * (2 ^ j * 2 ^ (k - j))) with (n * 2 ^ j * 2 ^ (k - j)) by ring.
      replace (a * 2 ^ (k - j) * Z.pos d) with (a * Z.pos d * 2 ^ (k - j)) by ring.
      apply Z.mul_le_mono_nonneg_r; lia. }
    pose proof (div_half_even_le _ _ _ Pd HN) as M1.
    assert (HN0 : 0 * Z.pos d <= n * 2 ^ k).
    { rewrite Z.mul_0_l. apply Z.mul_nonneg_nonneg; lia. }
    pose proof (div_half_even_ge _ _ _ Pd HN0) as M0.
    set (m := div_half_even (n * 2 ^ k) (Z.pos d)) in *.
    eexists. split; [reflexivity|].
    pose proof (Qred_correct (m # Z.to_pos (2 ^ k))) as R. unfold Qeq in R.
    destruct (Qred (m # Z.to_pos (2 ^ k))) as [x y]. cbn [Qnum Qden] in *.
    rewrite Z2Pos.id in R by exact P2.
    pose proof (Pos2Z.is_pos y) as Py. split.
    + apply (Z.mul_nonneg_cancel_r x (2 ^ k) P2). rewrite R.
      apply Z.mul_nonneg_nonneg; lia.
    + apply (Z.mul_le_mono_pos_r _ _ (2 ^ (k - j)) Pkj).
      replace (x * 2 ^ j * 2 ^ (k - j)) with (x * 2 ^ k) by (rewrite Ek; ring).
      rewrite R.
      replace (a * Z.pos y * 2 ^ (k - j)) with (a * 2 ^ (k - j) * Z.pos y) by ring.
      apply Z.mul_le_mono_nonneg_r; lia.
Qed.

(** An integer below 2^53 that is at most [q] stays at most the rounding
    of [q]. *)
Lemma rnd_ge (q : Q) (c : Z) :
  0 <= c < 2 ^ 53 -> c * QDen q <= Qnum q ->
  rnd q = Inf false \/
  exists q', rnd q = Fin q' /\ c * QDen q' <= Qnum q'.
Proof.
  intros [C0 C1] HB.
  pose proof (Pos2Z.is_pos (Qden q)) as Pq.
  assert (H0 : 0 <= Qnum q).
  { assert (0 <= c * QDen q) by (apply Z.mul_nonneg_nonneg; lia). lia. }
  unfold rnd. pose proof (Qred_correct q) as C. unfold Qeq in C.
  destruct (Qred q) as [n d]. cbn [Qnum Qden] in *.
  pose proof (Pos2Z.is_pos d) as Pd.
  assert (Hn : 0 <= n).
  { apply (Z.mul_nonneg_cancel_r n (QDen q) Pq). rewrite C.
    apply Z.mul_nonneg_nonneg; lia. }
  assert (HnB : c * Z.pos d <= n).
  { apply (Z.mul_le_mono_pos_r _ _ (QDen q) Pq). rewrite C.
    replace (c * Z.pos d * QDen q) with (c * QDen q * Z.pos d) by ring.
    apply Z.mul_le_mono_nonneg_r; lia. }
  cbv zeta. rewrite Z.abs_eq by lia.
  destruct (n =? 0) eqn:E0.
  { apply Z.eqb_eq in E0. right. exists 0%Q. cbn [Qnum Qden].
    split; [reflexivity|].
    assert (0 <= c * Z.pos d) by (apply Z.mul_nonneg_nonneg; lia). nia. }
  apply Z.eqb_neq in E0. assert (Hpos : 0 < n) by lia.
  rewrite Z.sgn_pos by lia. rewrite !Z.mul_1_l.
  change (1 <? 0) with false.
  set (L := ilog2 n (Z.pos d)).
  destruct (0 <=? Z.max (L - 52) (-1074)) eqn:Esh.
  - apply Z.leb_le in Esh.
    assert (Sh : Z.max (L - 52) (-1074) = L - 52) by lia.
    rewrite Sh in *. set (sh := L - 52) in *.
    assert (HL : 0 <= L) by lia.
    pose proof (ilog2_lower n (Z.pos d) Hpos Pd HL) as Lo. fold L in Lo.
    assert (P2 : 0 < 2 ^ sh) by (apply Z.pow_pos_nonneg; lia).
    assert (PD : 0 < Z.pos d * 2 ^ sh) by lia.
    assert (EL : 2 ^ L = 2 ^ sh * 2 ^ 52).
    { rewrite <- Z.pow_add_r by lia. f_equal. unfold sh. lia. }
    assert (HN : 2 ^ 52 * (Z.pos d * 2 ^ sh) <= n).
    { rewrite EL in Lo. lia. }
    pose proof (div_half_even_ge _ _ _ PD HN) as M.
    set (m := div_half_even n (Z.pos d * 2 ^ sh)) in *.
    destruct (2 ^ 1024 <=? m * 2 ^ sh); [left; reflexivity|].
    right. eexists. split; [reflexivity|]. cbn [inject_Z Qnum Qden].
    rewrite Z.mul_1_r.
    destruct (Z.eq_dec sh 0) as [S0|S1].
    + assert (E1 : 2 ^ sh = 1) by (rewrite S0; reflexivity).
      assert (HN' : c * (Z.pos d * 2 ^ sh) <= n) by (rewrite E1; lia).
      pose proof (div_half_even_ge _ _ _ PD HN') as M'. fold m in M'.
      rewrite E1. lia.
    + assert (2 <= 2 ^ sh).
      { change 2 with (2 ^ 1) at 1. apply Z.pow_le_mono_r; lia. }
      assert (2 ^ 52 * 2 <= m * 2 ^ sh).
      { transitivity (2 ^ 52 * 2 ^ sh).
        - apply Z.mul_le_mono_nonneg_l; lia.
        - apply Z.mul_le_mono_nonneg_r; lia. }
      change (2 ^ 52 * 2) with (2 ^ 53) in *. lia.
  - apply Z.leb_gt in Esh.
    set (k := - Z.max (L - 52) (-1074)) in *.
    assert (P2 : 0 < 2 ^ k) by (apply Z.pow_pos_nonneg; lia).
    assert (HN : c * 2 ^ k * Z.pos d <= n * 2 ^ k).
    { replace (c * 2 ^ k * Z.pos d) with (c * Z.pos d * 2 ^ k) by ring.
      apply Z.mul_le_mono_nonneg_r; lia. }
    pose proof (div_half_even_ge _ _ _ Pd HN) as M.
    set (m := div_half_even (n * 2 ^ k) (Z.pos d)) in *.
    right. eexists. split; [reflexivity|].
    pose proof (Qred_correct (m # Z.to_pos (2 ^ k))) as R. unfold Qeq in R.
    destruct (Qred (m # Z.to_pos (2 ^ k))) as [x y]. cbn [Qnum Qden] in *.
    rewrite Z2Pos.id in R by exact P2.
    pose proof (Pos2Z.is_pos y) as Py.
    apply (Z.mul_le_mono_pos_r _ _ (2 ^ k) P2). rewrite R.
    replace (c * Z.pos y * 2 ^ k) with (c * 2 ^ k * Z.pos y) by ring.
    apply Z.mul_le_mono_nonneg_r; lia.
Qed.

End RoundingOrder.

(* ================================================================== *)
(** * 20. The display format *)
(* ================================================================== *)

Section Display.

Ltac branch :=
  match goal with
  | |- context [if (?a <? ?b) then _ else _] =>
      let E := fresh "E" in destruct (a <? b) eqn:E
  end; cbv beta iota zeta.

(** [Math.floor(h / 24)] is the integer quotient: the division rounds, but
    never up to the next integer. *)
Lemma floor_div_24 (h : Z) :
  0 <= h < 2 ^ 52 -> Math_floor (div (int h) (int 24)) = int (h / 24).
Proof.
  intros [H0 H1].
  assert (D : div (int h) (int 24) = rnd (Qmake (h * 1) (1 * 24))) by reflexivity.
  rewrite D. set (q := Qmake (h * 1) (1 * 24)).
  set (k := h / 24).
  assert (K : 0 <= k /\ 24 * k <= h <= 24 * k + 23)
    by (unfold k; split; [apply Z.div_pos; lia|]; Z.div_mod_to_equations; lia).
  destruct K as [K0 K1].
  assert (Kb : 32 * k + 31 < 2 ^ 53).
  { change (2 ^ 52) with 4503599627370496 in H1.
    change (2 ^ 53) with 9007199254740992. lia. }
  destruct (rnd_le q (32 * k + 31) 5) as (q' & Eq & P0 & P1).
  - lia.
  - lia.
  - unfold q. cbn [Qnum]. lia.
  - unfold q. cbn [Qnum Qden]. change (2 ^ 5) with 32. lia.
  - destruct (rnd_ge q k) as [Ei|(q'' & Eq' & P2)].
    + change (2 ^ 53) with 9007199254740992 in *. lia.
    + unfold q. cbn [Qnum Qden]. lia.
    + rewrite Eq in Ei. discriminate.
    + rewrite Eq in Eq'. injection Eq' as <-. rewrite Eq.
      unfold Math_floor, int. do 2 f_equal.
      change (2 ^ 5) with 32 in P1.
      destruct q' as [x y]. unfold Qfloor. cbn [Qnum Qden] in *.
      pose proof (Pos2Z.is_pos y) as Py.
      symmetry. apply (Z.div_unique x (Z.pos y) k (x - k * Z.pos y)); lia.
Qed.

Lemma rem_int (h c : Z) : 0 <= h -> 0 < c -> rem (int h) (int c) = int (h mod c).
Proof.
  intros H0 Hc. unfold rem, int, Qzero. cbn [inject_Z Qnum Qden].
  destruct (c =? 0) eqn:E; [apply Z.eqb_eq in E; lia|].
  f_equal. rewrite <- (Qred_inject_Z (h mod c)). apply Qred_complete.
  rewrite Z.mul_1_r, Z.mul_1_l, Z.quot_div_nonneg by lia.
  unfold Qeq, Qminus, Qplus, Qopp, Qmult, inject_Z. cbn [Qnum Qden].
  pose proof (Z.div_mod h c ltac:(lia)). cbn [Pos.mul]. lia.
Qed.

Lemma gt_int (a : Z) : gt (int a) (Fin 0) = (0 <? a).
Proof. unfold gt. change (Fin 0) with (int 0). apply lt_int. Qed.

Ltac constants :=
  change (Fin 1) with (int 1); change (Fin 60) with (int 60);
  change (Fin 24) with (int 24).

(** [formatTime] on [H:M:S]: hours from 24 on are shown as days. *)
Lemma formatTime_hms (H M S : string) :
  digit_field H -> digit_field M -> digit_field S ->
  field_value H < 2 ^ 52 -> field_value M < safe -> field_value S < safe ->
  formatTime (Some (hms H M S)) =
    clock_text (field_value H / 24) (field_value H mod 24)
               (field_value M) (field_value S).
Proof.
  intros HH HM HS Bh Bm Bs.
  destruct (field_nonneg H M S HH HM HS) as (Ph & Pm & Ps).
  assert (Bh' : field_value H < safe).
  { unfold safe. change (2 ^ 52) with 4503599627370496 in Bh.
    change (2 ^ 53) with 9007199254740992. lia. }
  assert (Q0 : 0 <= field_value H / 24 <= field_value H)
    by (Z.div_mod_to_equations; lia).
  assert (R0 : 0 <= field_value H mod 24 < 24) by (apply Z.mod_pos_bound; lia).
  unfold formatTime.
  rewrite (hms_truthy H M S HH), (hms_no_dash H M S HH HM HS).
  cbv beta iota zeta.
  rewrite (hms_split H M S HH HM HS).
  unfold item. cbn [map nth_error ToNumber ToBoolean].
  rewrite !StringToNumber_field by (assumption || lia).
  constants. cbv iota.
  rewrite floor_div_24 by lia. rewrite rem_int by lia.
  cbn [ToNumber]. rewrite !gt_int. unfold clock_text, push.
  cbn [ToString].
  rewrite !Number_toString_int by (unfold safe in *; lia).
  branch; cbn [app List.length Nat.ltb Nat.leb orb];
    [rewrite ?Bool.orb_true_r; reflexivity|].
  branch; cbn [app List.length Nat.ltb Nat.leb orb];
    [rewrite ?Bool.orb_true_r; reflexivity|].
  branch; reflexivity.
Qed.

(** [formatTime] on [D-H:M:S]: the days are the prefix, the hours are shown
    as they are. *)
Lemma formatTime_dhms (D H M S : string) :
  digit_field D -> digit_field H -> digit_field M -> digit_field S ->
  field_value D < safe -> field_value H < safe ->
  field_value M < safe -> field_value S < safe ->
  formatTime (Some (dhms D H M S)) =
    clock_text (field_value D) (field_value H) (field_value M) (field_value S).
Proof.
  intros HD HH HM HS Bd Bh Bm Bs.
  destruct (field_nonneg H M S HH HM HS) as (Ph & Pm & Ps).
  assert (Pd : 0 <= field_value D) by (apply field_value_nonneg, HD).
  destruct (dhms_split D H M S HD HH HM HS) as (I & Sp & T).
  assert (TD : ToBoolean (Str D) = true).
  { destruct HD as [Dne _]. destruct D; [contradiction|reflexivity]. }
  unfold formatTime. rewrite T, I. cbv beta iota zeta. rewrite Sp.
  unfold item at 1. cbn [nth_error nth].
  rewrite (hms_split H M S HH HM HS).
  unfold item. cbn [map nth_error ToNumber]. rewrite TD.
  rewrite !StringToNumber_field by (assumption || lia).
  cbn [ToString]. rewrite (parseInt_field D (Some 10)) by (auto; lia).
  cbn [ToNumber]. rewrite !gt_int. unfold clock_text, push.
  cbn [ToString].
  rewrite !Number_toString_int by (unfold safe in *; lia).
  branch; cbn [app List.length Nat.ltb Nat.leb orb];
    [rewrite ?Bool.orb_true_r; reflexivity|].
  branch; cbn [app List.length Nat.ltb Nat.leb orb];
    [rewrite ?Bool.orb_true_r; reflexivity|].
  branch; reflexivity.
Qed.

End Display.

Section DisplayOfTicks.

Lemma join_push (sep : string) (l : list string) (x : string) :
  join sep (push l x) =
    match l with
    | [] => x
    | _ => join sep l ++ sep ++ x
    end.
Proof.
  unfold push. induction l as [|a l IH]; [reflexivity|].
  destruct l as [|b l]; [reflexivity|].
  change (join sep ((a :: b :: l) ++ [x])%list)
    with (a ++ sep ++ join sep ((b :: l) ++ [x])%list).
  rewrite IH. change (join sep (a :: b :: l)) with (a ++ sep ++ join sep (b :: l)).
  rewrite !append_assoc. reflexivity.
Qed.

Lemma formatTime_parts (t : string) :
  t <> "" ->
  exists parts,
    formatTime (Some t) =
      join " " (push parts
        (ToString (item Num (map StringToNumber (time_fields t)) 2) ++ "s")).
Proof.
  intros Hne. unfold formatTime, time_fields, time_part.
  assert (T : negb (ToBoolean (Str t)) = false)
    by (destruct t; [contradiction|reflexivity]).
  rewrite T. destruct (includes t "-"); cbv beta iota zeta; eexists; reflexivity.
Qed.

(** X1. [formatTime] of a string [H:M:S] with digit fields (hours below
    2^52) shows [H / 24] days, [H mod 24] hours and the minutes and seconds
    as they are, from the largest unit that is not zero down to the
    seconds: hours from 24 on are shown as days, and a unit is not dropped
    once a larger one is shown. *)
Theorem formatTime_rolls_hours_into_days (H M S : string) :
  digit_field H -> digit_field M -> digit_field S ->
  field_value H < 2 ^ 52 -> field_value M < safe -> field_value S < safe ->
  formatTime (Some (hms H M S)) =
    clock_text (field_value H / 24) (field_value H mod 24)
               (field_value M) (field_value S).
Proof. apply formatTime_hms. Qed.

Lemma formatTime_rolls_hours_into_days_witness :
  formatTime (Some (hms "49" "00" "07")) =
    clock_text (field_value "49" / 24) (field_value "49" mod 24)
               (field_value "00") (field_value "07").
Proof.
  apply (formatTime_rolls_hours_into_days "49" "00" "07");
    try (apply digit_field_literal; reflexivity); reflexivity.
Defined.

(** X2. [formatTime] of a day-prefixed string [D-H:M:S] with digit fields
    takes the days from the prefix and shows the hours as they are, without
    reducing them below 24. *)
Theorem formatTime_keeps_hours_under_day_prefix (D H M S : string) :
  digit_field D -> digit_field H -> digit_field M -> digit_field S ->
  field_value D < safe -> field_value H < safe ->
  field_value M < safe -> field_value S < safe ->
  formatTime (Some (dhms D H M S)) =
    clock_text (field_value D) (field_value H) (field_value M) (field_value S).
Proof. apply formatTime_dhms. Qed.

Lemma formatTime_keeps_hours_under_day_prefix_witness :
  formatTime (Some (dhms "1" "30" "00" "00")) =
    clock_text (field_value "1") (field_value "30") (field_value "00")
               (field_value "00").
Proof.
  apply (formatTime_keeps_hours_under_day_prefix "1" "30" "00" "00");
    try (apply digit_field_literal; reflexivity); reflexivity.
Defined.

(** X3. After [n] ticks from ["00:00:00"] (n below 2^52) the elapsed time
    is displayed as the days, hours, minutes and seconds of [n] seconds. *)
Theorem formatTime_after_ticks (n : nat) :
  Z.of_nat n < 2 ^ 52 ->
  formatTime (Some (ticks n "00:00:00")) =
    clock_text (Z.of_nat n / 86400) ((Z.of_nat n / 3600) mod 24)
               ((Z.of_nat n / 60) mod 60) (Z.of_nat n mod 60).
Proof.
  intros B. set (N := Z.of_nat n) in *.
  assert (HN : 0 <= N) by apply Nat2Z.is_nonneg.
  assert (Bs : N < safe).
  { unfold safe. change (2 ^ 52) with 4503599627370496 in B.
    change (2 ^ 53) with 9007199254740992. lia. }
  rewrite (ticks_clock n Bs). fold N.
  assert (R1 : 0 <= N / 3600 <= N) by (Z.div_mod_to_equations; lia).
  assert (R2 : 0 <= (N / 60) mod 60 < 60) by (apply Z.mod_pos_bound; lia).
  assert (R3 : 0 <= N mod 60 < 60) by (apply Z.mod_pos_bound; lia).
  rewrite formatTime_hms;
    try apply pad2_field; rewrite ?pad2_value by lia; unfold safe; try lia.
  rewrite Z.div_div by lia. reflexivity.
Qed.

Lemma formatTime_after_ticks_witness :
  formatTime (Some (ticks 5 "00:00:00")) =
    clock_text (Z.of_nat 5 / 86400) ((Z.of_nat 5 / 3600) mod 24)
               ((Z.of_nat 5 / 60) mod 60) (Z.of_nat 5 mod 60).
Proof. apply (formatTime_after_ticks 5). reflexivity. Defined.

(** X4. When fewer than three colon-separated fields remain after the
    optional day prefix, the seconds are [undefined] and the text
    [formatTime] returns ends in ["undefineds"]. *)
Theorem formatTime_missing_seconds (t : string) :
  t <> "" -> (List.length (time_fields t) < 3)%nat ->
  exists before, formatTime (Some t) = before ++ "undefineds".
Proof.
  intros Hne L. destruct (formatTime_parts t Hne) as [parts ->].
  rewrite join_push.
  assert (E : item Num (map StringToNumber (time_fields t)) 2 = Undefined).
  { unfold item.
    replace (nth_error (map StringToNumber (time_fields t)) 2) with (@None number);
      [reflexivity|].
    symmetry. apply nth_error_None. rewrite length_map. lia. }
  rewrite E. cbn [ToString].
  destruct parts as [|p parts].
  - exists "". reflexivity.
  - exists (join " " (p :: parts) ++ " "). rewrite append_assoc. reflexivity.
Qed.

Lemma formatTime_missing_seconds_witness :
  exists before, formatTime (Some "5:30") = before ++ "undefineds".
Proof.
  apply (formatTime_missing_seconds "5:30").
  - discriminate.
  - vm_compute. reflexivity.
Defined.

End DisplayOfTicks.

(* ================================================================== *)
(** * 21. Two-field durations under [incrementTime] *)
(* ================================================================== *)

Section TwoFields.

Lemma NaN_no_colon : includes "NaN" ":" = false /\ includes "NaN" "-" = false.
Proof. split; reflexivity. Qed.

Lemma split_two (A B : string) :
  digit_field A -> digit_field B ->
  split (A ++ ":" ++ B) ":" = [A; B] /\
  includes (A ++ ":" ++ B) "-" = false /\
  negb (ToBoolean (Str (A ++ ":" ++ B))) = false.
Proof.
  intros [An Ad] [Bn Bd].
  apply digits_exclude_separators in Ad, Bd.
  change (":" ++ B) with (String ":" B). repeat split.
  - rewrite split_first by apply Ad. rewrite split_none by apply Bd. reflexivity.
  - rewrite includes_append. cbn [includes].
    destruct Ad as [_ ->], Bd as [_ ->]. reflexivity.
  - destruct A; [contradiction|reflexivity].
Qed.

Lemma split_NaN (X Y : string) :
  digit_field X -> digit_field Y ->
  split (hms X Y "NaN") ":" = [X; Y; "NaN"] /\
  includes (hms X Y "NaN") "-" = false /\
  negb (ToBoolean (Str (hms X Y "NaN"))) = false.
Proof.
  intros [Xn Xd] [Yn Yd]. unfold hms.
  apply digits_exclude_separators in Xd, Yd.
  change (":" ++ Y ++ ":" ++ "NaN") with (String ":" (Y ++ String ":" "NaN")).
  repeat split.
  - rewrite split_first by apply Xd. rewrite split_first by apply Yd.
    reflexivity.
  - rewrite includes_append. cbn [includes]. rewrite includes_append.
    cbn [includes].
    destruct Xd as [_ ->], Yd as [_ ->]. reflexivity.
  - destruct X; [contradiction|reflexivity].
Qed.

Lemma incrementTime_NaN_seconds (h m : Z) :
  0 <= h < safe -> 0 <= m < 60 ->
  incrementTime (Some (hms (pad2 h) (pad2 m) "NaN")) = hms (pad2 h) (pad2 m) "NaN".
Proof.
  intros Hh Hm.
  assert (Fh : digit_field (pad2 h)) by (apply pad2_field; lia).
  assert (Fm : digit_field (pad2 m)) by (apply pad2_field; lia).
  destruct (split_NaN _ _ Fh Fm) as (Sp & I & T).
  unfold incrementTime. rewrite T, I. cbv beta iota zeta. rewrite Sp.
  unfold item. cbn [map nth_error ToNumber].
  rewrite (StringToNumber_field (pad2 h) Fh)
    by (rewrite pad2_value by lia; unfold safe in *; lia).
  rewrite (StringToNumber_field (pad2 m) Fm)
    by (rewrite pad2_value by lia; unfold safe in *; lia).
  rewrite !pad2_value by lia.
  change (StringToNumber "NaN") with NaN.
  change (add NaN (Fin 1)) with NaN. change (ge NaN (Fin 60)) with false.
  cbv iota. cbn [ToNumber]. change (Fin 60) with (int 60). rewrite ge_int.
  destruct (60 <=? m) eqn:E; [apply Z.leb_le in E; lia|].
  cbv iota. cbn [ToBoolean andb ToString].
  rewrite !Number_toString_int by (unfold safe in *; lia).
  reflexivity.
Qed.

(** X5. A duration with only two digit fields [A:B], as SLURM prints
    elapsed times below one hour, is read as hours and minutes with the
    seconds missing: the first tick turns it into [hh:mm:NaN] (the minutes
    restart from 0 with one hour more if they were 60 or more), and every
    later tick leaves that string as it is, so the time never advances. *)
Theorem incrementTime_two_fields_freezes (A B : string) (n : nat) :
  digit_field A -> digit_field B ->
  field_value A + 1 < safe -> field_value B + 1 < safe ->
  let '(h, m) := if 60 <=? field_value B then (field_value A + 1, 0)
                 else (field_value A, field_value B) in
  incrementTime (Some (A ++ ":" ++ B)) = hms (pad2 h) (pad2 m) "NaN" /\
  ticks (S n) (A ++ ":" ++ B) = hms (pad2 h) (pad2 m) "NaN".
Proof.
  intros FA FB BA BB.
  pose proof (field_value_nonneg A (proj2 FA)) as PA.
  pose proof (field_value_nonneg B (proj2 FB)) as PB.
  destruct (split_two A B FA FB) as (Sp & I & T).
  assert (E1 : incrementTime (Some (A ++ ":" ++ B)) =
               let '(h, m) := if 60 <=? field_value B then (field_value A + 1, 0)
                              else (field_value A, field_value B) in
               hms (pad2 h) (pad2 m) "NaN").
  { unfold incrementTime. rewrite T, I. cbv beta iota zeta. rewrite Sp.
    unfold item. cbn [map nth_error ToNumber].
    rewrite !StringToNumber_field by (assumption || lia).
    change (add NaN (Fin 1)) with NaN. change (ge NaN (Fin 60)) with false.
    cbv iota. cbn [ToNumber].
    change (Fin 60) with (int 60). change (Fin 1) with (int 1).
    rewrite ge_int.
    destruct (60 <=? field_value B) eqn:E; cbv beta iota zeta;
      cbn [ToBoolean andb ToString];
      rewrite ?add_int by lia;
      rewrite ?Number_toString_int by (unfold safe in *; lia);
      reflexivity. }
  destruct (60 <=? field_value B) eqn:E;
    [apply Z.leb_le in E|apply Z.leb_gt in E];
    (split; [exact E1|]);
    (induction n as [|k IH]; [exact E1|];
     change (ticks (S (S k)) (A ++ ":" ++ B))
       with (incrementTime (Some (ticks (S k) (A ++ ":" ++ B))));
     rewrite IH; apply incrementTime_NaN_seconds; lia).
Qed.

Lemma incrementTime_two_fields_freezes_witness :
  let '(h, m) := if 60 <=? field_value "30" then (field_value "5" + 1, 0)
                 else (field_value "5", field_value "30") in
  incrementTime (Some ("5" ++ ":" ++ "30")) = hms (pad2 h) (pad2 m) "NaN" /\
  ticks (S 9) ("5" ++ ":" ++ "30") = hms (pad2 h) (pad2 m) "NaN".
Proof.
  apply (incrementTime_two_fields_freezes "5" "30" 9);
    try (apply digit_field_literal; reflexivity); reflexivity.
Defined.

End TwoFields.

(* ================================================================== *)
(** * 22. The percentage of durations of whole seconds *)
(* ================================================================== *)

Section WholeSeconds.

Lemma round2_range (q : Q) :
  (0 <= q)%Q -> Qle_bool (inject_Z (10 ^ 21)) q = false ->
  exists q', round2 (Fin q) = Fin q' /\ 0 <= Qnum q'.
Proof.
  intros Hq Hbig. unfold round2.
  set (n := Qfloor (q * 100 + (1 # 2))%Q).
  assert (Hn : 0 <= n) by (apply Qfloor_nonneg_scaled, Hq).
  assert (Bn : n <= 10 ^ 23 + 1).
  { unfold n. apply Z.lt_succ_r.
    change (Z.succ (10 ^ 23 + 1)) with (Qfloor (inject_Z (10 ^ 23 + 1)) + 1).
    apply Z.lt_le_trans with (Qfloor (q * 100 + (1 # 2))%Q + 1); [lia|].
    apply Z.add_le_mono_r. apply Qfloor_resp_le.
    unfold Qle_bool in Hbig. apply Z.leb_gt in Hbig.
    destruct q as [x y]. unfold Qle, Qplus, Qmult, inject_Z in *.
    cbn [Qnum Qden] in *. pose proof (Pos2Z.is_pos y).
    change (10 ^ 21) with 1000000000000000000000 in Hbig.
    change (10 ^ 23 + 1) with 100000000000000000000001.
    rewrite !Pos2Z.inj_mul. lia. }
  destruct (rnd_bound (n # 100) (10 ^ 23 + 1)) as (q' & E & P0 & _).
  - exact Hn.
  - cbn [Qnum Qden]. lia.
  - vm_compute. reflexivity.
  - exists q'. split; [exact E|exact P0].
Qed.

(** X6. When both durations parse to whole seconds below 2^53 and the
    requested one is not zero, the percentage is a number from 0 to 100,
    never [NaN] and never infinite. *)
Theorem percentage_is_a_number (elapsed requested : option string) (E R : Z) :
  toSeconds elapsed = int E -> toSeconds requested = int R ->
  0 <= E < safe -> 0 < R < safe ->
  exists p, getElapsedPercentage elapsed requested = Fin p /\
            (0 <= p)%Q /\ (p <= 100)%Q.
Proof.
  intros HE HR BE BR. unfold getElapsedPercentage. rewrite HE, HR.
  change (Fin 0) with (int 0). rewrite strict_eq_int.
  destruct (R =? 0) eqn:E0; [apply Z.eqb_eq in E0; lia|].
  destruct (percentage_ratio_range E R BE BR) as (q & Eq & Hq & Hbig).
  rewrite Eq, (toFixed_round2 q Hq Hbig).
  destruct (round2_range q Hq Hbig) as (q' & -> & P0).
  unfold Math_min. destruct (lt (Fin q') (Fin 100)) eqn:L.
  - exists q'. split; [reflexivity|].
    unfold lt, Qle_bool in L. cbn [Qnum Qden] in L.
    apply Bool.negb_true_iff, Z.leb_gt in L.
    unfold Qle. cbn [Qnum Qden]. pose proof (Pos2Z.is_pos (Qden q')). lia.
  - exists 100%Q. split; [reflexivity|]. split; discriminate.
Qed.

Lemma percentage_is_a_number_witness :
  exists p, getElapsedPercentage (Some "0:00:10") (Some "1:00:00") = Fin p /\
            (0 <= p)%Q /\ (p <= 100)%Q.
Proof.
  apply (percentage_is_a_number (Some "0:00:10") (Some "1:00:00") 10 3600);
    try reflexivity; unfold safe; lia.
Defined.

(** X7. A job whose elapsed time has reached the requested one shows
    exactly 100: for whole seconds below 2^53 with the requested duration
    not zero and not above the elapsed one. *)
Theorem percentage_overdue_is_100 (elapsed requested : option string) (E R : Z) :
  toSeconds elapsed = int E -> toSeconds requested = int R ->
  0 < R -> R <= E -> E < safe ->
  getElapsedPercentage elapsed requested = Fin 100.
Proof.
  intros HE HR R0 RE BE. unfold getElapsedPercentage. rewrite HE, HR.
  change (Fin 0) with (int 0). rewrite strict_eq_int.
  destruct (R =? 0) eqn:E0; [apply Z.eqb_eq in E0; lia|].
  assert (BE' : 0 <= E < safe) by lia.
  assert (BR : 0 < R < safe) by lia.
  destruct (percentage_ratio_range E R BE' BR) as (q & Eq & Hq & Hbig).
  assert (Q100 : 100 * QDen q <= Qnum q).
  { clear E0. destruct R as [|r|r]; try lia.
    assert (D : div (int E) (int (Z.pos r)) = rnd (Qmake (E * 1) (1 * r)))
      by reflexivity.
    rewrite D in Eq.
    destruct (rnd_ge (Qmake (E * 1) (1 * r)) 1) as [Ei|(q1 & E1 & G1)].
    - split; [lia|reflexivity].
    - cbn [Qnum Qden]. rewrite Pos.mul_1_l. lia.
    - rewrite Ei in Eq. discriminate.
    - rewrite E1 in Eq. cbn [mul] in Eq.
      destruct (rnd_ge (q1 * 100)%Q 100) as [Ei|(q2 & E2 & G2)].
      + split; [lia|reflexivity].
      + cbn [Qmult Qnum Qden]. rewrite Pos.mul_1_r. lia.
      + rewrite Ei in Eq. discriminate.
      + rewrite E2 in Eq. injection Eq as <-. exact G2. }
  rewrite Eq, (toFixed_round2 q Hq Hbig). unfold round2.
  set (n := Qfloor (q * 100 + (1 # 2))%Q).
  assert (Hn : 10000 <= n).
  { unfold n. change 10000 with (Qfloor (inject_Z 10000)).
    apply Qfloor_resp_le.
    destruct q as [x y]. unfold Qle, Qplus, Qmult, inject_Z in *.
    cbn [Qnum Qden] in *. pose proof (Pos2Z.is_pos y).
    rewrite !Pos2Z.inj_mul. lia. }
  destruct (rnd_ge (n # 100) 100) as [Ei|(q3 & E3 & G3)].
  - split; [lia|reflexivity].
  - cbn [Qnum Qden]. lia.
  - rewrite Ei. reflexivity.
  - rewrite E3. unfold Math_min.
    assert (L : lt (Fin q3) (Fin 100) = false).
    { unfold lt, Qle_bool. cbn [Qnum Qden].
      apply Bool.negb_false_iff, Z.leb_le. lia. }
    rewrite L. reflexivity.
Qed.

Lemma percentage_overdue_is_100_witness :
  getElapsedPercentage (Some "1-00:00:07") (Some "12:00:00") = Fin 100.
Proof.
  apply (percentage_overdue_is_100 (Some "1-00:00:07") (Some "12:00:00") 86407 43200);
    try reflexivity; unfold safe; lia.
Defined.

End WholeSeconds.

(* ================================================================== *)
(** * 23. Shortened paths *)
(* ================================================================== *)

Section Paths.

Lemma split_parts_exclude (s : string) (sep : ascii) :
  Forall (fun p => includes p sep = false) (split s sep).
Proof.
  unfold split. induction s as [|c s IH]; cbn [split_parts].
  - repeat constructor.
  - destruct (split_parts s sep) as [h l].
    destruct (Ascii.eqb c sep) eqn:E.
    + constructor; [reflexivity|exact IH].
    + inversion IH as [|? ? Hh Hl]; subst.
      constructor; [|exact Hl]. cbn [includes]. rewrite E, Hh. reflexivity.
Qed.

Lemma folders_are_folders (path : string) : Forall folder (folders path).
Proof.
  unfold folders. pose proof (split_parts_exclude path "/") as F.
  induction (split path "/") as [|p l IH]; cbn [filter]; [constructor|].
  inversion F as [|? ? Hp Hl]; subst.
  destruct (ToBoolean (Str p)) eqn:T; [|apply IH, Hl].
  constructor; [|apply IH, Hl]. split; [|exact Hp].
  intros ->. discriminate T.
Qed.

Lemma split_path (l : list string) (f : string) :
  Forall folder l -> folder f -> split (f ++ path_of l) "/" = f :: l.
Proof.
  intros Hl. revert f. induction Hl as [|g t Hg Ht IH]; intros f [Fn Fs].
  - cbn [path_of]. rewrite append_empty. apply split_none, Fs.
  - cbn [path_of]. change ("/" ++ g ++ path_of t) with (String "/" (g ++ path_of t)).
    rewrite split_first by exact Fs. rewrite IH by exact Hg. reflexivity.
Qed.

Lemma filter_folders (l : list string) :
  Forall folder l -> filter (fun p => ToBoolean (Str p)) l = l.
Proof.
  induction 1 as [|g t [Gn _] _ IH]; [reflexivity|].
  cbn [filter]. rewrite IH.
  destruct g; [contradiction|reflexivity].
Qed.

(** The folders of [/f1/.../fn] are [f1], ..., [fn]. *)
Lemma folders_path_of (l : list string) : Forall folder l -> folders (path_of l) = l.
Proof.
  intros Hl. unfold folders. destruct Hl as [|f t Hf Ht]; [reflexivity|].
  cbn [path_of]. change ("/" ++ f ++ path_of t) with (String "/" (f ++ path_of t)).
  change (String "/" (f ++ path_of t)) with ("" ++ String "/" (f ++ path_of t)).
  rewrite split_first by reflexivity. rewrite split_path by assumption.
  change (filter (fun p => ToBoolean (Str p)) ("" :: f :: t))
    with (filter (fun p => ToBoolean (Str p)) (f :: t)).
  apply filter_folders. constructor; assumption.
Qed.

Lemma dots_path (k : nat) (g : string) :
  "/" ++ repeat_string "../" k ++ g = path_of (repeat ".." k ++ [g])%list.
Proof.
  induction k as [|k IH].
  - cbn. rewrite append_empty. reflexivity.
  - cbn [repeat_string repeat app path_of].
    rewrite <- IH. rewrite append_assoc. reflexivity.
Qed.

Lemma nth_last (l : list string) (g : string) :
  nth (List.length (l ++ [g])%list - 1) (l ++ [g])%list "" = g.
Proof.
  rewrite length_app. cbn [List.length].
  replace (List.length l + 1 - 1)%nat with (List.length l) by lia.
  rewrite app_nth2 by lia. rewrite Nat.sub_diag. reflexivity.
Qed.

Lemma dots_folders (k : nat) : Forall folder (repeat ".." k).
Proof.
  induction k; cbn [repeat]; constructor; auto. split; [discriminate|reflexivity].
Qed.

(** What [shortenPath] returns, by the folders of its argument. *)
Lemma shortenPath_folders (path : string) :
  shortenPath (Some path) =
    match folders path with
    | f :: m :: rest =>
        match rev (m :: rest) with
        | g :: _ :: _ => path_of (f :: repeat ".." (List.length rest) ++ [g])%list
        | _ => path
        end
    | _ => path
    end.
Proof.
  unfold shortenPath. fold (folders path).
  destruct path as [|c p] eqn:Ep; [reflexivity|].
  cbn [ToBoolean String.eqb negb]. rewrite <- Ep. clear Ep c p.
  destruct (folders path) as [|f [|m rest]]; [reflexivity|reflexivity|].
  destruct (exists_last (l := m :: rest) ltac:(discriminate)) as (mid & g & E).
  rewrite E, rev_app_distr. cbn [rev app].
  assert (Lm : List.length mid = List.length rest).
  { apply (f_equal (@List.length string)) in E. rewrite length_app in E.
    cbn [List.length] in E. lia. }
  destruct mid as [|m' mid'].
  - cbn [List.length Nat.leb rev]. reflexivity.
  - replace (rev (m' :: mid')) with (rev mid' ++ [m'])%list by reflexivity.
    destruct (rev mid' ++ [m'])%list eqn:R; [destruct (rev mid'); discriminate|].
    change (f :: (m' :: mid') ++ [g])%list with ((f :: m' :: mid') ++ [g])%list.
    rewrite nth_last.
    rewrite length_app. cbn [List.length nth].
    replace (S (S (List.length mid')) + 1 <=? 2)%nat with false
      by (symmetry; apply Nat.leb_gt; lia).
    replace (S (S (List.length mid')) + 1 - 2)%nat with (List.length rest)
      by (cbn [List.length] in Lm; lia).
    cbn [path_of]. rewrite <- dots_path. reflexivity.
Qed.

Lemma shortenPath_path_of (f g : string) (mid : list string) :
  folder f -> folder g -> Forall folder mid -> mid <> [] ->
  shortenPath (Some (path_of (f :: mid ++ [g])%list)) =
    path_of (f :: repeat ".." (List.length mid) ++ [g])%list.
Proof.
  intros Ff Fg Fm Ne. rewrite shortenPath_folders.
  rewrite folders_path_of
    by (constructor; [exact Ff|apply Forall_app; split;
          [exact Fm|constructor; [exact Fg|constructor]]]).
  destruct mid as [|m mid]; [contradiction|].
  cbn [app]. replace (rev (m :: mid ++ [g])%list) with (g :: rev (m :: mid))
    by (change (m :: mid ++ [g])%list with ((m :: mid) ++ [g])%list;
        rewrite rev_app_distr; reflexivity).
  destruct (rev (m :: mid)) eqn:R.
  - apply (f_equal (@List.length string)) in R. rewrite length_rev in R. discriminate.
  - rewrite length_app. cbn [List.length].
    replace (List.length mid + 1)%nat with (S (List.length mid)) by lia.
    reflexivity.
Qed.

(** X8. [shortenPath] of the path [/f/m1/.../mk/g] with at least one
    folder between the first and the last is [/f/../.../../g], with one
    [..] for each folder in between. *)
Theorem shortenPath_keeps_first_and_last (f g : string) (mid : list string) :
  folder f -> folder g -> Forall folder mid -> mid <> [] ->
  shortenPath (Some (path_of (f :: mid ++ [g])%list)) =
    path_of (f :: repeat ".." (List.length mid) ++ [g])%list.
Proof. exact (shortenPath_path_of f g mid). Qed.

Lemma folder_literal (s : string) :
  (negb (String.eqb s "") && negb (includes s "/")) = true -> folder s.
Proof.
  intros E. apply Bool.andb_true_iff in E as [E1 E2]. split.
  - intros ->. discriminate E1.
  - apply Bool.negb_true_iff, E2.
Qed.

Lemma shortenPath_keeps_first_and_last_witness :
  shortenPath (Some (path_of ("scratch" :: ["user"; "abc"; "proj"] ++ ["run1"])%list)) =
    path_of ("scratch" :: repeat ".." (List.length ["user"; "abc"; "proj"]) ++ ["run1"])%list.
Proof.
  apply (shortenPath_keeps_first_and_last "scratch" "run1" ["user"; "abc"; "proj"]).
  - apply folder_literal; reflexivity.
  - apply folder_literal; reflexivity.
  - constructor; [apply folder_literal; reflexivity|].
    constructor; [apply folder_literal; reflexivity|].
    constructor; [apply folder_literal; reflexivity|constructor].
  - discriminate.
Defined.

Lemma shortenPath_result_folders (path : string) :
  shortenPath (Some path) = path \/
  exists f g k, shortenPath (Some path) = path_of (f :: repeat ".." (S k) ++ [g])%list /\
                folder f /\ folder g /\
                folders path <> [] /\
                hd "" (folders path) = f /\ last (folders path) "" = g /\
                List.length (folders path) = S (S (S k)).
Proof.
  rewrite shortenPath_folders.
  pose proof (folders_are_folders path) as F.
  destruct (folders path) as [|f [|m rest]]; [left; reflexivity|left; reflexivity|].
  destruct (exists_last (l := m :: rest) ltac:(discriminate)) as (mid & g & E).
  rewrite E, rev_app_distr. cbn [rev app].
  assert (Lm : List.length mid = List.length rest).
  { apply (f_equal (@List.length string)) in E. rewrite length_app in E.
    cbn [List.length] in E. lia. }
  destruct (rev mid) as [|x r] eqn:R; [left; reflexivity|].
  right. destruct rest as [|m2 rest'].
  { destruct mid; [discriminate R|discriminate Lm]. }
  exists f, g, (List.length rest'). cbn [List.length].
  inversion F as [|? ? Ff Frest]; subst.
  rewrite E in Frest. apply Forall_app in Frest as [_ Fg].
  inversion Fg as [|? ? Hg _]; subst.
  split; [reflexivity|]. split; [exact Ff|]. split; [exact Hg|].
  split; [discriminate|]. split; [reflexivity|]. split.
  - change (f :: mid ++ [g])%list with ((f :: mid) ++ [g])%list. apply last_last.
  - cbn [List.length]. rewrite length_app, Lm. cbn [List.length]. lia.
Qed.

(** X9. Shortening is idempotent: a shortened path is what [shortenPath]
    returns for it. *)
Theorem shortenPath_idempotent (path : string) :
  shortenPath (Some (shortenPath (Some path))) = shortenPath (Some path).
Proof.
  destruct (shortenPath_result_folders path) as [E|(f & g & k & E & Ff & Fg & _)].
  - rewrite E. exact E.
  - rewrite E.
    assert (Fd : Forall folder (repeat ".." (S k))) by apply dots_folders.
    pose proof (shortenPath_path_of f g (repeat ".." (S k)) Ff Fg Fd
                  ltac:(discriminate)) as P.
    rewrite repeat_length in P. exact P.
Qed.

(** X10. The shortened path has as many folders as the path, with the
    same first and last one; empty parts (a doubled or trailing slash) do
    not count. *)
Theorem shortenPath_keeps_depth (path : string) :
  List.length (folders (shortenPath (Some path))) = List.length (folders path) /\
  hd "" (folders (shortenPath (Some path))) = hd "" (folders path) /\
  last (folders (shortenPath (Some path))) "" = last (folders path) "".
Proof.
  destruct (shortenPath_result_folders path)
    as [E|(f & g & k & E & Ff & Fg & _ & Hf & Hg & Hl)].
  - rewrite E. repeat split.
  - rewrite E, Hf, Hg, Hl.
    rewrite folders_path_of.
    + repeat split.
      * cbn [List.length]. rewrite length_app, repeat_length. cbn [List.length]. lia.
      * change (f :: repeat ".." (S k) ++ [g])%list
          with ((f :: repeat ".." (S k)) ++ [g])%list.
        apply last_last.
    + constructor; [exact Ff|]. apply Forall_app. split; [apply dots_folders|].
      constructor; [exact Fg|constructor].
Qed.

(** X19. The location of a job.  Without a submit directory (none, or the
    empty string) the job id is shown.  Otherwise a link is shown whose
    target is the file explorer prefix followed by the whole directory, and
    whose text is not empty and has as many folders as the directory, with
    the same first and last one. *)
Theorem job_link_shows_shortened_directory (j : job) :
  match generate_file_explorer_path_for_jobs j with
  | JobId id =>
      id = job_id j /\ (submit_dir j = None \/ submit_dir j = Some "")
  | Anchor href text =>
      exists dir, submit_dir j = Some dir /\ dir <> "" /\
        href = "/pun/sys/dashboard/files/fs" ++ dir /\
        text <> "" /\
        List.length (folders text) = List.length (folders dir) /\
        hd "" (folders text) = hd "" (folders dir) /\
        last (folders text) "" = last (folders dir) ""
  end.
Proof.
  unfold generate_file_explorer_path_for_jobs.
  destruct (submit_dir j) as [dir|]; [|split; [reflexivity|left; reflexivity]].
  destruct dir as [|a dir']; [split; [reflexivity|right; reflexivity]|].
  set (dir := String a dir'). change (negb (ToBoolean (Str dir))) with false.
  cbn [negb]. exists dir. split; [reflexivity|]. split; [discriminate|].
  split; [reflexivity|].
  destruct (shortenPath_result_folders dir)
    as [E|(f & g & k & E & Ff & Fg & _ & Hf & Hg & Hl)].
  - rewrite E. split; [discriminate|]. repeat split.
  - rewrite E, Hf, Hg, Hl. split; [discriminate|].
    rewrite folders_path_of.
    + repeat split.
      * cbn [List.length]. rewrite length_app, repeat_length. cbn [List.length]. lia.
      * change (f :: repeat ".." (S k) ++ [g])%list
          with ((f :: repeat ".." (S k)) ++ [g])%list.
        apply last_last.
    + constructor; [exact Ff|]. apply Forall_app. split; [apply dots_folders|].
      constructor; [exact Fg|constructor].
Qed.

End Paths.

(* ================================================================== *)
(** * 24. Runs of the job list *)
(* ================================================================== *)

Section Runs.

Lemma enabled_rows (c : component) (jobId : string) (l : list job) :
  existsb (fun r => String.eqb (row_id r) jobId && negb (cancel_disabled r))
          (map (render_row c) l) =
  existsb (fun j => String.eqb (job_id j) jobId) l &&
  negb (same_id (isCanceling c) jobId).
Proof.
  induction l as [|j l IH]; [reflexivity|].
  cbn [map existsb]. rewrite IH.
  unfold render_row at 1 2. cbn [row_id cancel_disabled].
  destruct (String.eqb (job_id j) jobId) eqn:E.
  - apply String.eqb_eq in E. rewrite E.
    destruct (same_id (isCanceling c) jobId); cbn [negb andb orb];
      rewrite ?Bool.andb_false_r; reflexivity.
  - reflexivity.
Qed.

(** When the cancel button of a job can be pressed. *)
Lemma cancel_enabled_spec (c : component) (jobId : string) :
  cancel_enabled c jobId =
    negb (loading c) &&
    negb (match error c with Some msg => ToBoolean (Str msg) | None => false end) &&
    listed c jobId && negb (same_id (isCanceling c) jobId).
Proof.
  unfold cancel_enabled, render, listed.
  pose proof (enabled_rows c jobId (jobs c)) as E.
  destruct (loading c); [reflexivity|]. cbn [negb andb].
  destruct (error c) as [msg|]; [destruct (ToBoolean (Str msg)); [reflexivity|]|];
    cbn [negb andb]; (destruct (jobs c); [reflexivity|exact E]).
Qed.

(** X11. A cancel request is only sent from an enabled button.  A click
    that changes the component happens with loading over, no error
    displayed, the job listed and its id not the marker, and what it changes
    is this: the marker becomes the id of the job and one cancel request for
    it is added to the requests sent; the jobs, the loading flag and the
    error are as before.  Under these conditions the click does change the
    component; while the component is loading, for a job not listed, or with
    the marker on the job, the click changes nothing. *)
Theorem click_sends_only_for_listed_job (c : component) (jobId : string) :
  (click c jobId <> c ->
     loading c = false /\ listed c jobId = true /\
     isCanceling c <> Some jobId /\
     (forall msg, error c = Some msg -> msg = "") /\
     click c jobId =
       mkComponent (jobs c) (loading c) (error c) (Some jobId)
                   (requests c ++ [PostCancel jobId])%list) /\
  (loading c = false -> listed c jobId = true ->
   isCanceling c <> Some jobId ->
   (forall msg, error c = Some msg -> msg = "") ->
     click c jobId <> c) /\
  (loading c = true \/ listed c jobId = false \/ isCanceling c = Some jobId ->
     click c jobId = c).
Proof.
  rewrite click_spec, cancel_enabled_spec. split; [|split].
  - intros Hne.
    destruct (loading c) eqn:Lo; [contradiction Hne; reflexivity|].
    destruct (listed c jobId);
      [|rewrite Bool.andb_false_r in Hne; contradiction Hne; reflexivity].
    split; [reflexivity|]. split; [reflexivity|].
    destruct (same_id (isCanceling c) jobId) eqn:S;
      [rewrite Bool.andb_false_r in Hne; contradiction Hne; reflexivity|].
    split.
    { intros E. rewrite E in S. cbn in S. rewrite string_eqb_refl in S. discriminate. }
    destruct (error c) as [m|] eqn:Er.
    + destruct (ToBoolean (Str m)) eqn:T; [contradiction Hne; reflexivity|].
      split.
      * intros msg [= <-].
        cbn in T. apply Bool.negb_false_iff, String.eqb_eq in T. exact T.
      * cbn [negb andb]. unfold cancelJob, fetch, setIsCanceling.
        cbn [jobs loading error isCanceling requests]. rewrite Lo, Er. reflexivity.
    + split; [discriminate|].
      cbn [negb andb]. unfold cancelJob, fetch, setIsCanceling.
      cbn [jobs loading error isCanceling requests]. rewrite Lo, Er. reflexivity.
  - intros Lo Li Mk Er.
    assert (S : same_id (isCanceling c) jobId = false).
    { destruct (isCanceling c) as [i|]; [|reflexivity]. cbn [same_id].
      apply String.eqb_neq. intros ->. apply Mk. reflexivity. }
    assert (T : match error c with
                | Some msg => ToBoolean (Str msg)
                | None => false
                end = false).
    { destruct (error c) as [m|]; [|reflexivity]. rewrite (Er m eq_refl). reflexivity. }
    rewrite Lo, Li, S, T. cbn [negb andb].
    intros E. apply (f_equal requests) in E.
    unfold cancelJob, fetch, setIsCanceling in E. cbn [requests] in E.
    apply (f_equal (@List.length request)) in E.
    rewrite length_app in E. cbn [List.length] in E. lia.
  - intros [L|[L|L]]; rewrite L; rewrite ?Bool.andb_false_r; cbn [negb andb];
      try reflexivity.
    cbn [same_id]. rewrite string_eqb_refl. rewrite Bool.andb_false_r. reflexivity.
Qed.

Lemma click_sends_only_for_listed_job_witness :
  let c := mkComponent [mkJob "7" "sim" None "R" 4 1 (Some "0:00:10") (Some "1:00:00")]
                       false None None [GetJobs] in
  loading c = false /\ listed c "7" = true /\
  isCanceling c <> Some "7" /\
  (forall msg, error c = Some msg -> msg = "") /\
  click c "7" =
    mkComponent (jobs c) (loading c) (error c) (Some "7")
                (requests c ++ [PostCancel "7"])%list.
Proof.
  intro c.
  apply (proj1 (click_sends_only_for_listed_job c "7")).
  discriminate.
Defined.

(** X12. The marker holds one id.  After the button of job A and then the
    button of another listed job B are pressed, the marker is B, the button
    of A is enabled again although its request is pending, a further click
    on it sends a second request for A, and the settling of A's request
    resets the marker while B's request is pending. *)
Theorem marker_holds_one_job (c : component) (A B : string) :
  cancel_enabled c A = true -> listed c B = true -> A <> B ->
  let c2 := click (click c A) B in
  isCanceling c2 = Some B /\
  cancel_enabled c2 A = true /\
  cancel_calls A (click c2 A) = (cancel_calls A c + 2)%nat /\
  (forall r, isCanceling (cancel_settled c2 A r) = None).
Proof.
  intros EA LB Hne. cbv zeta.
  assert (NA : String.eqb A B = false) by (apply String.eqb_neq, Hne).
  assert (NB : String.eqb B A = false) by (apply String.eqb_neq; congruence).
  pose proof EA as EA'. rewrite cancel_enabled_spec in EA'.
  apply Bool.andb_true_iff in EA' as [EA' SA].
  apply Bool.andb_true_iff in EA' as [EA' LA].
  apply Bool.andb_true_iff in EA' as [Lo Er].
  rewrite (click_spec c A), EA.
  assert (EB : cancel_enabled (cancelJob c A) B = true).
  { rewrite cancel_enabled_spec. unfold cancelJob, fetch, setIsCanceling, listed in *.
    cbn [loading error jobs isCanceling same_id].
    rewrite Lo, Er, LB, NA. reflexivity. }
  rewrite (click_spec _ B), EB.
  assert (E2 : cancel_enabled (cancelJob (cancelJob c A) B) A = true).
  { rewrite cancel_enabled_spec. unfold cancelJob, fetch, setIsCanceling, listed in *.
    cbn [loading error jobs isCanceling same_id].
    rewrite Lo, Er, LA, NB. reflexivity. }
  split; [reflexivity|]. split; [exact E2|]. split; [|reflexivity].
  rewrite click_spec, E2, cancel_calls_cancelJob.
  unfold cancel_calls, cancelJob, fetch, setIsCanceling.
  cbn [requests]. rewrite !filter_app, !length_app. cbn [filter].
  rewrite string_eqb_refl, NB. cbn [List.length]. lia.
Qed.

Lemma marker_holds_one_job_witness :
  let c := mkComponent [mkJob "A" "sim" None "R" 4 1 (Some "0:00:10") (Some "1:00:00");
                        mkJob "B" "fit" None "PD" 8 2 (Some "0:00:00") (Some "2:00:00")]
                       false None None [GetJobs] in
  let c2 := click (click c "A") "B" in
  isCanceling c2 = Some "B" /\
  cancel_enabled c2 "A" = true /\
  cancel_calls "A" (click c2 "A") = (cancel_calls "A" c + 2)%nat /\
  (forall r, isCanceling (cancel_settled c2 "A" r) = None).
Proof.
  intro c. apply (marker_holds_one_job c "A" "B").
  - reflexivity.
  - reflexivity.
  - discriminate.
Defined.

Lemma tick_keeps_ids (l : list job) (jobId : string) :
  filter (fun job => negb (String.eqb (job_id job) jobId))
    (map (fun job =>
            if String.eqb (state job) "R"
            then with_time_elapsed job (incrementTime (time_elapsed job))
            else job) l) =
  map (fun job =>
         if String.eqb (state job) "R"
         then with_time_elapsed job (incrementTime (time_elapsed job))
         else job)
    (filter (fun job => negb (String.eqb (job_id job) jobId)) l).
Proof.
  induction l as [|j l IH]; [reflexivity|].
  cbn [map filter]. rewrite IH.
  assert (E : job_id (if String.eqb (state j) "R"
                      then with_time_elapsed j (incrementTime (time_elapsed j))
                      else j) = job_id j)
    by (destruct (String.eqb (state j) "R"); reflexivity).
  rewrite E. destruct (negb (String.eqb (job_id j) jobId)); reflexivity.
Qed.

Lemma tick_listed (c : component) (jobId : string) :
  listed (tick c) jobId = listed c jobId.
Proof.
  unfold listed, tick, setJobs. cbn [jobs].
  induction (jobs c) as [|j l IH]; [reflexivity|].
  cbn [map existsb]. rewrite IH.
  destruct (String.eqb (state j) "R"); reflexivity.
Qed.

(** X13. A tick commutes with a click on a cancel button and with the
    settling of a cancel request: the ticker and a cancellation do not
    depend on the order in which they run. *)
Theorem tick_commutes_with_cancel (c : component) (jobId : string) (r : reply) :
  tick (click c jobId) = click (tick c) jobId /\
  tick (cancel_settled c jobId r) = cancel_settled (tick c) jobId r.
Proof.
  split.
  - rewrite !click_spec, !cancel_enabled_spec, tick_listed.
    change (loading (tick c)) with (loading c).
    change (error (tick c)) with (error c).
    change (isCanceling (tick c)) with (isCanceling c).
    destruct (negb (loading c) && _ && _ && _); reflexivity.
  - unfold cancel_settled, settle.
    destruct r as [msg|d]; [reflexivity|].
    destruct (ToBoolean (data_error d)); [reflexivity|].
    unfold tick, setJobs, setIsCanceling. cbn [jobs loading error isCanceling requests].
    rewrite tick_keeps_ids. reflexivity.
Qed.

(** X14. A cancel request that succeeds removes the jobs with that id and
    no other, keeps the order of the others, leaves the error cell as it
    was, and resets the marker; removing again changes nothing. *)
Theorem cancel_success_removes_job (c : component) (jobId : string) (r : reply) :
  failure_message r = None ->
  let c' := cancel_settled c jobId r in
  (forall j, In j (jobs c') <-> In j (jobs c) /\ job_id j <> jobId) /\
  listed c' jobId = false /\
  jobs c' = filter (fun j => negb (String.eqb (job_id j) jobId)) (jobs c) /\
  error c' = error c /\
  isCanceling c' = None /\
  jobs (cancel_settled c' jobId r) = jobs c'.
Proof.
  intros H. cbv zeta.
  assert (E : forall c0, jobs (cancel_settled c0 jobId r) =
            filter (fun j => negb (String.eqb (job_id j) jobId)) (jobs c0) /\
            error (cancel_settled c0 jobId r) = error c0).
  { intros c0. unfold cancel_settled, settle. destruct r as [m|d]; [discriminate H|].
    cbn in H. destruct (ToBoolean (data_error d)); [discriminate H|].
    split; reflexivity. }
  destruct (E c) as [Ej Ee].
  split; [|split; [|split; [exact Ej|split; [exact Ee|split; [reflexivity|]]]]].
  - intros j. rewrite Ej, filter_In. split; intros [I N]; (split; [exact I|]).
    + intros Eq. rewrite Eq, string_eqb_refl in N. discriminate.
    + apply Bool.negb_true_iff, String.eqb_neq, N.
  - unfold listed. rewrite Ej.
    generalize (jobs c). intros l. induction l as [|j l IH]; [reflexivity|].
    cbn [filter]. destruct (String.eqb (job_id j) jobId) eqn:Q; cbn [negb]; [exact IH|].
    cbn [existsb]. rewrite Q, IH. reflexivity.
  - destruct (E (cancel_settled c jobId r)) as [Ej' _]. rewrite Ej', Ej.
    generalize (jobs c). intros l. induction l as [|j l IH]; [reflexivity|].
    cbn [filter]. destruct (negb (String.eqb (job_id j) jobId)) eqn:Q; [|exact IH].
    cbn [filter]. rewrite Q, IH. reflexivity.
Qed.

Lemma cancel_success_removes_job_witness :
  let c := mkComponent [mkJob "A" "sim" None "R" 4 1 (Some "0:00:10") (Some "1:00:00");
                        mkJob "B" "fit" None "PD" 8 2 (Some "0:00:00") (Some "2:00:00")]
                       false None (Some "B") [GetJobs; PostCancel "B"] in
  let r := Fulfilled (mkBody Undefined None) in
  let c' := cancel_settled c "B" r in
  (forall j, In j (jobs c') <-> In j (jobs c) /\ job_id j <> "B") /\
  listed c' "B" = false /\
  jobs c' = filter (fun j => negb (String.eqb (job_id j) "B")) (jobs c) /\
  error c' = error c /\
  isCanceling c' = None /\
  jobs (cancel_settled c' "B" r) = jobs c'.
Proof.
  intros c r. apply (cancel_success_removes_job c "B" r). reflexivity.
Defined.

Lemma step_keeps_error (c : component) (e : event) :
  (error c <> None -> error (step c e) <> None) /\
  (loading c = false -> loading (step c e) = false) /\
  (exists more, requests (step c e) = (requests c ++ more)%list).
Proof.
  destruct e as [|r|j|j r]; cbn [step].
  - repeat split; auto. exists []. cbn. symmetry. apply app_nil_r.
  - unfold jobs_settled, settle.
    destruct r as [m|d]; [|destruct (ToBoolean (data_error d))]; cbn;
      (split; [try discriminate; auto|split; [auto|exists []; symmetry; apply app_nil_r]]).
  - rewrite click_spec. destruct (cancel_enabled c j).
    + cbn. repeat split; auto. eexists. reflexivity.
    + repeat split; auto. exists []. symmetry. apply app_nil_r.
  - unfold cancel_settled, settle.
    destruct r as [m|d]; [|destruct (ToBoolean (data_error d))]; cbn;
      (split; [try discriminate; auto|split; [auto|exists []; symmetry; apply app_nil_r]]).
Qed.

(** X15. In every run of the component an error, once set, is never reset
    to [null], loading never starts again, and the requests sent are never
    withdrawn. *)
Theorem run_never_clears_error (l : list event) (c : component) :
  (error c <> None -> error (run c l) <> None) /\
  (loading c = false -> loading (run c l) = false) /\
  (exists more, requests (run c l) = (requests c ++ more)%list).
Proof.
  revert c. induction l as [|e l IH]; intros c.
  - repeat split; auto. exists []. symmetry. apply app_nil_r.
  - change (run c (e :: l)) with (run (step c e) l).
    destruct (step_keeps_error c e) as (S1 & S2 & more1 & S3).
    destruct (IH (step c e)) as (I1 & I2 & more2 & I3).
    repeat split; auto.
    exists (more1 ++ more2)%list. rewrite I3, S3, app_assoc. reflexivity.
Qed.

(** X16. The job list that a successful snapshot brings replaces the one
    held, whatever ticks ran before: the list is [data.jobs], or empty when
    the body has no [jobs], and the ticks leave no trace in it. *)
Theorem snapshot_overrides_ticks (c : component) (r : reply) (n : nat) :
  failure_message r = None ->
  jobs (jobs_settled (run c (repeat Tick n)) r) = jobs (jobs_settled c r) /\
  (forall d, r = Fulfilled d ->
     jobs (jobs_settled c r) = match data_jobs d with Some l => l | None => [] end) /\
  error (jobs_settled (run c (repeat Tick n)) r) = error c.
Proof.
  intros H.
  assert (E : forall c0, jobs (jobs_settled c0 r) =
            match r with
            | Fulfilled d => match data_jobs d with Some l => l | None => [] end
            | Rejected _ => jobs c0
            end /\ error (jobs_settled c0 r) = error c0).
  { intros c0. unfold jobs_settled, settle. destruct r as [m|d]; [discriminate H|].
    cbn in H. destruct (ToBoolean (data_error d)); [discriminate H|].
    split; reflexivity. }
  assert (T : error (run c (repeat Tick n)) = error c).
  { revert c. clear. induction n as [|k IH]; intros c; [reflexivity|].
    cbn [repeat]. change (run c (Tick :: repeat Tick k)) with (run (tick c) (repeat Tick k)).
    rewrite IH. reflexivity. }
  destruct (E c) as [E1 _]. destruct (E (run c (repeat Tick n))) as [E2 E3].
  split; [rewrite E1, E2; destruct r; [discriminate H|reflexivity]|]. split.
  - intros d ->. exact E1.
  - rewrite E3. exact T.
Qed.

Lemma snapshot_overrides_ticks_witness :
  let c := mkComponent [mkJob "A" "sim" None "R" 4 1 (Some "0:00:10") (Some "1:00:00")]
                       true None None [GetJobs] in
  let r := Fulfilled (mkBody Undefined
             (Some [mkJob "A" "sim" None "R" 4 1 (Some "0:00:20") (Some "1:00:00")])) in
  jobs (jobs_settled (run c (repeat Tick 5)) r) = jobs (jobs_settled c r) /\
  (forall d, r = Fulfilled d ->
     jobs (jobs_settled c r) = match data_jobs d with Some l => l | None => [] end) /\
  error (jobs_settled (run c (repeat Tick 5)) r) = error c.
Proof.
  intros c r. apply (snapshot_overrides_ticks c r 5). reflexivity.
Defined.

End Runs.

(* ================================================================== *)
(** * 25. The popup form and the layout lock *)
(* ================================================================== *)

Section Popup.

Lemma form_step_lock (L0 : bool) (s : screen) (e : form_event) :
  (if showModal s
   then layoutLocked s = true /\ originalLockState s = L0
   else layoutLocked s = L0) ->
  let s' := form_step s e in
  if showModal s'
  then layoutLocked s' = true /\ originalLockState s' = L0
  else layoutLocked s' = L0.
Proof.
  destruct s as [l m o]. cbn [showModal layoutLocked originalLockState].
  destruct m; intros I; [destruct I as [I1 I2]|];
    destruct e as [|sub| | |ok]; try destruct sub; try destruct ok; cbn; auto.
Qed.

(** X17. Over every sequence of events of one popup form that starts
    closed, the layout is locked exactly while the modal is shown, and has
    the lock it started with whenever the modal is closed. *)
Theorem lock_follows_modal (l : list form_event) (s : screen) :
  showModal s = false ->
  layoutLocked (form_run s l) =
    if showModal (form_run s l) then true else layoutLocked s.
Proof.
  intros H.
  assert (G : forall l s0,
            (if showModal s0
             then layoutLocked s0 = true /\ originalLockState s0 = layoutLocked s
             else layoutLocked s0 = layoutLocked s) ->
            if showModal (form_run s0 l)
            then layoutLocked (form_run s0 l) = true /\
                 originalLockState (form_run s0 l) = layoutLocked s
            else layoutLocked (form_run s0 l) = layoutLocked s).
  { clear. intros l. induction l as [|e l IH]; intros s0 I; [exact I|].
    change (form_run s0 (e :: l)) with (form_run (form_step s0 e) l).
    apply IH. apply (form_step_lock (layoutLocked s) s0 e I). }
  specialize (G l s). rewrite H in G. specialize (G eq_refl).
  destruct (showModal (form_run s l)); [apply G|exact G].
Qed.

Lemma lock_follows_modal_witness :
  let s := mkScreen false false false in
  let l := [OpenClick; Submitted false; CloseClick true; Escape; OpenClick] in
  layoutLocked (form_run s l) =
    if showModal (form_run s l) then true else layoutLocked s.
Proof.
  intros s l. apply (lock_follows_modal l s). reflexivity.
Defined.









End Popup.
